(** * ts-namespace-import: the plugin core ([Plugin.js]) and the
      language-service operations that wrap it, over a model of Node's
      [path] module.

    Strings are lists of characters.  Indices, lengths and the [-1]
    sentinels of the path algorithms are integers ([Z]).  The platform
    [path] module is the POSIX one ([path === path.posix]); the process
    working directory is an explicit argument [cwd]. *)

From Stdlib Require Import List Ascii String ZArith Lia ZifyBool Bool.
Import ListNotations.
Local Open Scope Z_scope.

(** ** JavaScript strings *)

Definition str := list ascii.

Definition js (s : string) : str := list_ascii_of_string s.

Definition str_eqb (a b : str) : bool :=
  if list_eq_dec ascii_dec a b then true else false.

Module JS.

Definition len (s : str) : Z := Z.of_nat (List.length s).

(** [s.charCodeAt(i)]; [None] stands for [NaN]. *)
Definition charCodeAt (s : str) (i : Z) : option ascii :=
  if i <? 0 then None else nth_error s (Z.to_nat i).

(** [code === c] for a character constant [c]. *)
Definition code_is (code : option ascii) (c : ascii) : bool :=
  match code with
  | Some d => Ascii.eqb d c
  | None => false
  end.

Definition code_eqb (a b : option ascii) : bool :=
  match a, b with
  | Some x, Some y => Ascii.eqb x y
  | _, _ => false
  end.

(** Relative index of [String.prototype.slice]. *)
Definition clamp (n i : Z) : Z :=
  if i <? 0 then Z.max (n + i) 0 else Z.min i n.

(** [s.slice(start, end)] *)
Definition slice (s : str) (start stop : Z) : str :=
  let from := clamp (len s) start in
  let to := clamp (len s) stop in
  firstn (Z.to_nat (to - from)) (skipn (Z.to_nat from) s).

(** [s.slice(start)] *)
Definition sliceFrom (s : str) (start : Z) : str :=
  skipn (Z.to_nat (clamp (len s) start)) s.

(** [s.charAt(i)] *)
Definition charAt (s : str) (i : Z) : str :=
  match charCodeAt s i with
  | Some c => [c]
  | None => []
  end.

(** [s.startsWith(p)] *)
Fixpoint startsWith (s p : str) {struct p} : bool :=
  match p, s with
  | [], _ => true
  | _ :: _, [] => false
  | c :: p', d :: s' => Ascii.eqb d c && startsWith s' p'
  end.

(** [s.includes(p)] *)
Fixpoint includes (s p : str) : bool :=
  startsWith s p ||
  match s with
  | [] => false
  | _ :: s' => includes s' p
  end.

(** [s.lastIndexOf(c)] for a one-character [c]; [-1] when absent. *)
Fixpoint lastIndexOf_from (s : str) (c : ascii) (i : Z) (found : Z) : Z :=
  match s with
  | [] => found
  | d :: s' => lastIndexOf_from s' c (i + 1) (if Ascii.eqb d c then i else found)
  end.

Definition lastIndexOf (s : str) (c : ascii) : Z := lastIndexOf_from s c 0 (-1).

(** Truthiness of a possibly-undefined string and boolean. *)
Definition truthy (s : option str) : bool :=
  match s with
  | Some (_ :: _) => true
  | _ => false
  end.

Definition truthyb (b : option bool) : bool :=
  match b with
  | Some true => true
  | _ => false
  end.

(** [for (i = lo + n - 1; i >= lo; --i) body], with [break]. *)
Fixpoint for_down {S : Type} (lo : Z) (n : nat)
         (body : Z -> S -> S * bool) (st : S) : S :=
  match n with
  | O => st
  | Datatypes.S k =>
      let '(st', brk) := body (lo + Z.of_nat k) st in
      if brk then st' else for_down lo k body st'
  end.

(** [for (i = i0; i < i0 + n; ++i) body], with [break]. *)
Fixpoint for_up {S : Type} (i : Z) (n : nat)
         (body : Z -> S -> S * bool) (st : S) : S :=
  match n with
  | O => st
  | Datatypes.S k =>
      let '(st', brk) := body i st in
      if brk then st' else for_up (i + 1) k body st'
  end.

End JS.

(** ** [path.posix]

    The functions of Node's [path] module the plugin calls, written loop by
    loop after the [posix] object of Node's [lib/path.js]: each loop body is
    a function from the loop state to the new state and a [break] flag. *)

Module Path.

Definition CHAR_FORWARD_SLASH : ascii := "/"%char.
Definition CHAR_DOT : ascii := "."%char.

Definition isPosixPathSeparator (code : option ascii) : bool :=
  JS.code_is code CHAR_FORWARD_SLASH.

(** *** [normalizeString] *)

Record NormState := mkNorm {
  res : str;
  lastSegmentLength : Z;
  lastSlash : Z;
  dots : Z;
  code : option ascii
}.

Definition normalize_body (path : str) (allowAboveRoot : bool)
           (i : Z) (st : NormState) : NormState * bool :=
  let next (c : option ascii) : NormState * bool :=
    if isPosixPathSeparator c then
      if (lastSlash st =? i - 1) || (dots st =? 1) then
        (mkNorm (res st) (lastSegmentLength st) i 0 c, false)
      else if dots st =? 2 then
        let r := res st in
        let above :=
          if allowAboveRoot then
            mkNorm (r ++ (if JS.len r >? 0 then js "/.." else js ".."))
                   2 i 0 c
          else mkNorm r (lastSegmentLength st) i 0 c in
        if (JS.len r <? 2) || negb (lastSegmentLength st =? 2)
           || negb (JS.code_is (JS.charCodeAt r (JS.len r - 1)) CHAR_DOT)
           || negb (JS.code_is (JS.charCodeAt r (JS.len r - 2)) CHAR_DOT)
        then
          if JS.len r >? 2 then
            let lastSlashIndex := JS.lastIndexOf r CHAR_FORWARD_SLASH in
            if lastSlashIndex =? -1 then
              (mkNorm [] 0 i 0 c, false)
            else
              let r' := JS.slice r 0 lastSlashIndex in
              (mkNorm r' (JS.len r' - 1 - JS.lastIndexOf r' CHAR_FORWARD_SLASH)
                      i 0 c, false)
          else if negb (JS.len r =? 0) then
            (mkNorm [] 0 i 0 c, false)
          else (above, false)
        else (above, false)
      else
        let seg := JS.slice path (lastSlash st + 1) i in
        (mkNorm (if JS.len (res st) >? 0
                 then res st ++ CHAR_FORWARD_SLASH :: seg
                 else seg)
                (i - lastSlash st - 1) i 0 c, false)
    else if JS.code_is c CHAR_DOT && negb (dots st =? -1) then
      (mkNorm (res st) (lastSegmentLength st) (lastSlash st) (dots st + 1) c,
       false)
    else
      (mkNorm (res st) (lastSegmentLength st) (lastSlash st) (-1) c, false)
  in
  if i <? JS.len path then next (JS.charCodeAt path i)
  else if isPosixPathSeparator (code st) then (st, true)
  else next (Some CHAR_FORWARD_SLASH).

Definition normalizeString (path : str) (allowAboveRoot : bool) : str :=
  res (JS.for_up 0 (Datatypes.S (List.length path))
                 (normalize_body path allowAboveRoot)
                 (mkNorm [] 0 (-1) 0 None)).

(** *** [resolve(...args)]: the arguments are visited from the last one
    back; [cwd] is consulted only when no argument is absolute. *)

Definition isAbsoluteStart (p : str) : bool :=
  JS.code_is (JS.charCodeAt p 0) CHAR_FORWARD_SLASH.

Fixpoint resolve_loop (cwd : str) (rev_args : list str) (resolvedPath : str)
  : str * bool :=
  match rev_args with
  | [] =>
      match cwd with
      | [] => (resolvedPath, false)
      | _ => (cwd ++ CHAR_FORWARD_SLASH :: resolvedPath, isAbsoluteStart cwd)
      end
  | p :: rest =>
      match p with
      | [] => resolve_loop cwd rest resolvedPath
      | _ =>
          let rp := p ++ CHAR_FORWARD_SLASH :: resolvedPath in
          if isAbsoluteStart p then (rp, true)
          else resolve_loop cwd rest rp
      end
  end.

Definition resolve (cwd : str) (args : list str) : str :=
  let '(resolvedPath, resolvedAbsolute) := resolve_loop cwd (rev args) [] in
  let normalized := normalizeString resolvedPath (negb resolvedAbsolute) in
  if resolvedAbsolute then CHAR_FORWARD_SLASH :: normalized
  else match normalized with
       | [] => js "."
       | _ => normalized
       end.

(** *** [relative(from, to)] *)

Definition common_body (from to : str) (i : Z) (st : Z * Z)
  : (Z * Z) * bool :=
  let fromCode := JS.charCodeAt from (1 + i) in
  if negb (JS.code_eqb fromCode (JS.charCodeAt to (1 + i))) then (st, true)
  else if JS.code_is fromCode CHAR_FORWARD_SLASH then ((i + 1, i), false)
  else ((i + 1, snd st), false).

Definition ups_body (from : str) (fromEnd : Z) (i : Z) (out : str)
  : str * bool :=
  if (i =? fromEnd) || JS.code_is (JS.charCodeAt from i) CHAR_FORWARD_SLASH
  then (out ++ (match out with [] => js ".." | _ => js "/.." end), false)
  else (out, false).

Definition relative (cwd : str) (from0 to0 : str) : str :=
  if str_eqb from0 to0 then []
  else
    let from := resolve cwd [from0] in
    let to := resolve cwd [to0] in
    if str_eqb from to then []
    else
      let fromStart := 1 in
      let fromEnd := JS.len from in
      let fromLen := fromEnd - fromStart in
      let toStart := 1 in
      let toLen := JS.len to - toStart in
      let length := if fromLen <? toLen then fromLen else toLen in
      let '(i, lastCommonSep) :=
        JS.for_up 0 (Z.to_nat length) (common_body from to) (0, -1) in
      let tail (lastCommonSep : Z) : str :=
        let out :=
          JS.for_up (fromStart + lastCommonSep + 1)
                    (Z.to_nat (fromEnd - (fromStart + lastCommonSep + 1) + 1))
                    (ups_body from fromEnd) [] in
        out ++ JS.sliceFrom to (toStart + lastCommonSep) in
      if i =? length then
        if toLen >? length then
          if JS.code_is (JS.charCodeAt to (toStart + i)) CHAR_FORWARD_SLASH
          then JS.sliceFrom to (toStart + i + 1)
          else if i =? 0 then JS.sliceFrom to (toStart + i)
          else tail lastCommonSep
        else if fromLen >? length then
          if JS.code_is (JS.charCodeAt from (fromStart + i)) CHAR_FORWARD_SLASH
          then tail i
          else if i =? 0 then tail 0
          else tail lastCommonSep
        else tail lastCommonSep
      else tail lastCommonSep.

(** *** [dirname(path)] *)

Definition dirname_body (path : str) (i : Z) (st : Z * bool)
  : (Z * bool) * bool :=
  let '(end_, matchedSlash) := st in
  if JS.code_is (JS.charCodeAt path i) CHAR_FORWARD_SLASH then
    if negb matchedSlash then ((i, matchedSlash), true)
    else (st, false)
  else ((end_, false), false).

Definition dirname (path : str) : str :=
  match path with
  | [] => js "."
  | _ =>
      let hasRoot := JS.code_is (JS.charCodeAt path 0) CHAR_FORWARD_SLASH in
      let '(end_, _) :=
        JS.for_down 1 (List.length path - 1) (dirname_body path) (-1, true) in
      if end_ =? -1 then (if hasRoot then js "/" else js ".")
      else if hasRoot && (end_ =? 1) then js "//"
      else JS.slice path 0 end_
  end.

(** *** [extname(path)] *)

Record ExtState := mkExt {
  startDot : Z;
  startPart : Z;
  ext_end : Z;
  ext_matchedSlash : bool;
  preDotState : Z
}.

Definition extname_body (path : str) (i : Z) (st : ExtState)
  : ExtState * bool :=
  let code := JS.charCodeAt path i in
  if JS.code_is code CHAR_FORWARD_SLASH then
    if negb (ext_matchedSlash st) then
      (mkExt (startDot st) (i + 1) (ext_end st) (ext_matchedSlash st)
             (preDotState st), true)
    else (st, false)
  else
    let st1 :=
      if ext_end st =? -1
      then mkExt (startDot st) (startPart st) (i + 1) false (preDotState st)
      else st in
    if JS.code_is code CHAR_DOT then
      if startDot st1 =? -1 then
        (mkExt i (startPart st1) (ext_end st1) (ext_matchedSlash st1)
               (preDotState st1), false)
      else if negb (preDotState st1 =? 1) then
        (mkExt (startDot st1) (startPart st1) (ext_end st1)
               (ext_matchedSlash st1) 1, false)
      else (st1, false)
    else if negb (startDot st1 =? -1) then
      (mkExt (startDot st1) (startPart st1) (ext_end st1)
             (ext_matchedSlash st1) (-1), false)
    else (st1, false).

Definition extname_scan (path : str) : ExtState :=
  JS.for_down 0 (List.length path) (extname_body path)
              (mkExt (-1) 0 (-1) true 0).

Definition extname (path : str) : str :=
  let st := extname_scan path in
  if (startDot st =? -1) || (ext_end st =? -1) || (preDotState st =? 0)
     || ((preDotState st =? 1) && (startDot st =? ext_end st - 1)
         && (startDot st =? startPart st + 1))
  then []
  else JS.slice path (startDot st) (ext_end st).

(** *** [basename(path, suffix)] with the suffix given *)

Record BaseState := mkBase {
  b_start : Z;
  b_end : Z;
  b_matchedSlash : bool;
  extIdx : Z;
  firstNonSlashEnd : Z
}.

Definition basename_suffix_body (path suffix : str) (i : Z) (st : BaseState)
  : BaseState * bool :=
  let code := JS.charCodeAt path i in
  if JS.code_is code CHAR_FORWARD_SLASH then
    if negb (b_matchedSlash st) then
      (mkBase (i + 1) (b_end st) (b_matchedSlash st) (extIdx st)
              (firstNonSlashEnd st), true)
    else (st, false)
  else
    let st1 :=
      if firstNonSlashEnd st =? -1
      then mkBase (b_start st) (b_end st) false (extIdx st) (i + 1)
      else st in
    if extIdx st1 >=? 0 then
      if JS.code_eqb code (JS.charCodeAt suffix (extIdx st1)) then
        if extIdx st1 - 1 =? -1 then
          (mkBase (b_start st1) i (b_matchedSlash st1) (extIdx st1 - 1)
                  (firstNonSlashEnd st1), false)
        else
          (mkBase (b_start st1) (b_end st1) (b_matchedSlash st1)
                  (extIdx st1 - 1) (firstNonSlashEnd st1), false)
      else
        (mkBase (b_start st1) (firstNonSlashEnd st1) (b_matchedSlash st1)
                (-1) (firstNonSlashEnd st1), false)
    else (st1, false).

Definition basename_plain_body (path : str) (i : Z) (st : BaseState)
  : BaseState * bool :=
  if JS.code_is (JS.charCodeAt path i) CHAR_FORWARD_SLASH then
    if negb (b_matchedSlash st) then
      (mkBase (i + 1) (b_end st) (b_matchedSlash st) (extIdx st)
              (firstNonSlashEnd st), true)
    else (st, false)
  else if b_end st =? -1 then
    (mkBase (b_start st) (i + 1) false (extIdx st) (firstNonSlashEnd st),
     false)
  else (st, false).

Definition basename (path suffix : str) : str :=
  if (JS.len suffix >? 0) && (JS.len suffix <=? JS.len path) then
    if str_eqb suffix path then []
    else
      let st :=
        JS.for_down 0 (List.length path) (basename_suffix_body path suffix)
                    (mkBase 0 (-1) true (JS.len suffix - 1) (-1)) in
      let end_ :=
        if b_start st =? b_end st then firstNonSlashEnd st
        else if b_end st =? -1 then JS.len path
        else b_end st in
      JS.slice path (b_start st) end_
  else
    let st :=
      JS.for_down 0 (List.length path) (basename_plain_body path)
                  (mkBase 0 (-1) true (-1) (-1)) in
    if b_end st =? -1 then []
    else JS.slice path (b_start st) (b_end st).

End Path.

(** ** Host-facing data ([typescript/lib/tsserverlibrary]) *)

(** A call either returns a value or throws. *)
Inductive Thrown : Type :=
| TypeError
| HostError (message : str).

Inductive Completion (A : Type) : Type :=
| Normal (a : A)
| Throw (e : Thrown).
Arguments Normal {A} a.
Arguments Throw {A} e.

(** [try { return body } catch (e) { }] followed by [rest]. *)
Definition try_return {A : Type} (body : Completion A) (rest : A) : A :=
  match body with
  | Normal a => a
  | Throw _ => rest
  end.

Record PluginOptions := mkOptions {
  paths : option (list str);
  ignoreNamedExport : option bool;
  nameTransform : option str;
  capitalizedFilesOnly : option bool
}.

Record CompilerOptions := mkCompilerOptions {
  baseUrl : option str;
  importModuleSpecifierEnding : option str
}.

Record SourceFile := mkSourceFile {
  sf_fileName : str;
  text : str
}.

Record Program := mkProgram {
  getSourceFile : str -> option SourceFile
}.

Record CompletionEntryData := mkData {
  exportName : option str;
  fileName : option str;
  modulePath : option str
}.

Record CompletionEntry := mkEntry {
  entry_name : str;
  entry_kind : str;
  source : option str;
  sortText : str;
  hasAction : option bool;
  isImportStatementCompletion : option bool;
  data : option CompletionEntryData
}.

Record TextSpan := mkSpan {
  span_start : Z;
  span_length : Z
}.

Record TextChange := mkTextChange {
  span : TextSpan;
  newText : str
}.

Record FileTextChanges := mkFileTextChanges {
  change_fileName : str;
  textChanges : list TextChange
}.

Record CodeFixAction := mkCodeFixAction {
  fixName : str;
  description : str;
  changes : list FileTextChanges;
  commands : list str
}.

Record CompletionEntryDetails := mkDetails {
  details_name : str;
  details_kind : str;
  kindModifiers : str;
  displayParts : list str;
  codeActions : list CodeFixAction
}.

(** [ScriptElementKind.alias] *)
Definition ScriptElementKind_alias : str := js "alias".

(** ** An insertion-ordered [Set] of strings *)

Module StrSet.

Fixpoint has (s : list str) (x : str) : bool :=
  match s with
  | [] => false
  | y :: s' => str_eqb y x || has s' x
  end.

Definition add (s : list str) (x : str) : list str :=
  if has s x then s else s ++ [x].

(** [new Set(l)] *)
Definition of_list (l : list str) : list str := fold_left add l [].

(** [[...set]] *)
Definition spread (s : list str) : list str := s.

End StrSet.

(** ** Characters *)

Definition CHAR_BACKWARD_SLASH : ascii := ascii_of_nat 92.
Definition CHAR_DOUBLE_QUOTE : ascii := ascii_of_nat 34.
Definition CHAR_LINE_FEED : ascii := ascii_of_nat 10.
Definition CHAR_SPACE : ascii := " "%char.

Definition isUpper (c : ascii) : bool :=
  let n := nat_of_ascii c in (65 <=? n)%nat && (n <=? 90)%nat.

Definition isLower (c : ascii) : bool :=
  let n := nat_of_ascii c in (97 <=? n)%nat && (n <=? 122)%nat.

Definition isDigit (c : ascii) : bool :=
  let n := nat_of_ascii c in (48 <=? n)%nat && (n <=? 57)%nat.

(** [\s] on one-byte characters. *)
Definition isSpace (c : ascii) : bool :=
  let n := nat_of_ascii c in
  ((9 <=? n)%nat && (n <=? 13)%nat) || (n =? 32)%nat || (n =? 160)%nat.

(** [toUpperCase] and [toLowerCase] on the characters [stringCase] applies
    them to: letters [a]-[z] and [A]-[Z] change case, digits and spaces stay. *)
Definition toUpperChar (c : ascii) : ascii :=
  if isLower c then ascii_of_nat (nat_of_ascii c - 32) else c.

Definition toLowerChar (c : ascii) : ascii :=
  if isUpper c then ascii_of_nat (nat_of_ascii c + 32) else c.

Definition toUpperCase (s : str) : str := map toUpperChar s.
Definition toLowerCase (s : str) : str := map toLowerChar s.

(** [s.replace(/[^a-zA-Z0-9]/g, " ")] *)
Definition replaceNonAlnum (s : str) : str :=
  map (fun c => if isUpper c || isLower c || isDigit c then c else CHAR_SPACE) s.

(** [s.replace(/\\/g, "/")] *)
Definition replaceBackslashes (s : str) : str :=
  map (fun c => if Ascii.eqb c CHAR_BACKWARD_SLASH
                then Path.CHAR_FORWARD_SLASH else c) s.

(** [s.split(/\s+/)]: [cur] is the piece being read, in reverse; [inSep]
    tells that the previous character belonged to a separator run. *)
Fixpoint split_ws (s : str) (cur : str) (inSep : bool) : list str :=
  match s with
  | [] => [rev cur]
  | c :: s' =>
      if isSpace c then
        if inSep then split_ws s' cur true
        else rev cur :: split_ws s' [] true
      else split_ws s' (c :: cur) false
  end.

Definition splitWhitespace (s : str) : list str := split_ws s [] false.

(** [/^[A-Z]/.test(s)] *)
Definition testLeadingUpper (s : str) : bool :=
  match s with
  | c :: _ => isUpper c
  | [] => false
  end.

Definition opt_is (o : option str) (s : str) : bool :=
  match o with
  | Some v => str_eqb v s
  | None => false
  end.

(** ** [Plugin.js] *)

(** [getFileNameWithoutExt] *)
Definition getFileNameWithoutExt (filePath : str) : str :=
  let ext := Path.extname filePath in
  Path.basename filePath ext.

(** [getFilePathWithoutExt] *)
Definition getFilePathWithoutExt (filePath : str) : str :=
  let ext := Path.extname filePath in
  JS.slice filePath 0 (JS.len filePath - JS.len ext).

(** [stringCase(str, { pascalCase })] *)
Fixpoint stringCase_map (words : list str) (index : nat) (pascalCase : bool)
  : list str :=
  match words with
  | [] => []
  | word :: rest =>
      (if Nat.eqb index 0 && negb pascalCase then toLowerCase word
       else toUpperCase (JS.charAt word 0) ++ toLowerCase (JS.sliceFrom word 1))
      :: stringCase_map rest (S index) pascalCase
  end.

Definition stringCase (s : str) (pascalCase : bool) : str :=
  let words :=
    filter (fun w => JS.truthy (Some w))
           (splitWhitespace (replaceNonAlnum s)) in
  List.concat (stringCase_map words 0 pascalCase).

(** [transformImportName] *)
Definition transformImportName (name : str) (options : PluginOptions) : str :=
  if JS.truthy (nameTransform options)
  then stringCase name (opt_is (nameTransform options) (js "PascalCase"))
  else name.

Section Plugin.

(** [process.cwd()] *)
Variable cwd : str.

(** [project.projectService.host] and the resolver
    [ts.moduleSpecifiers.getModuleSpecifier] of the host library. *)
Variable ServerHost : Type.
Variable ts_getModuleSpecifier :
  CompilerOptions -> SourceFile -> str -> str -> ServerHost -> Completion str.

Record Project := mkProject {
  getCurrentDirectory : str;
  readDirectory :
    str -> list str -> option (list str) -> option (list str) -> option Z
    -> list str;
  getCompilerOptions : CompilerOptions;
  project_getProgram : option Program;
  projectService_host : option ServerHost
}.

Record PluginCreateInfo := mkInfo {
  config_options : PluginOptions;
  project : Project;
  languageService_getProgram : option Program
}.

(** The fallback of [getModuleSpceifier] (the code after the [try]). *)
Definition fallbackSpecifier (selfPath modulePath : str)
           (compilerOptions : CompilerOptions) : str :=
  let specifier :=
    match baseUrl compilerOptions with
    | Some ((_ :: _) as base) => Path.relative cwd base modulePath
    | _ =>
        let selfDir := Path.dirname selfPath in
        let relativePath := Path.relative cwd selfDir modulePath in
        let specifier :=
          if JS.startsWith relativePath (js ".") then relativePath
          else js "./" ++ relativePath in
        replaceBackslashes specifier
    end in
  let specifier := getFilePathWithoutExt specifier in
  if opt_is (importModuleSpecifierEnding compilerOptions) (js "js") then
    let originalExt := Path.extname modulePath in
    specifier ++ originalExt
  else if opt_is (importModuleSpecifierEnding compilerOptions) (js "minimal")
  then specifier
  else
    let originalExt := Path.extname modulePath in
    specifier ++ originalExt.

(** [getModuleSpceifier] *)
Definition getModuleSpceifier (selfPath modulePath : str) (project : Project)
  : str :=
  let compilerOptions := getCompilerOptions project in
  let importingSourceFile :=
    match project_getProgram project with
    | Some program => getSourceFile program selfPath
    | None => None
    end in
  let fallback := fallbackSpecifier selfPath modulePath compilerOptions in
  match importingSourceFile, projectService_host project with
  | Some sourceFile, Some host =>
      try_return
        (ts_getModuleSpecifier compilerOptions sourceFile selfPath
                               modulePath host)
        fallback
  | _, _ => fallback
  end.

(** [getCodeFixActionFromPath] *)
Definition getCodeFixActionFromPath (name selfPath modulePath : str)
           (project : Project) : CodeFixAction :=
  let moduleSpecifier := getModuleSpceifier selfPath modulePath project in
  let text :=
    js "import * as " ++ name ++ js " from " ++ CHAR_DOUBLE_QUOTE
       :: moduleSpecifier ++ CHAR_DOUBLE_QUOTE :: js ";"
       ++ [CHAR_LINE_FEED] in
  mkCodeFixAction
    (js "namespace-import")
    text
    [mkFileTextChanges selfPath [mkTextChange (mkSpan 0 0) text]]
    [].

(** [getCompletionEntryDetails] *)
Definition getCompletionEntryDetails (name selfPath modulePath : str)
           (info : PluginCreateInfo) : CompletionEntryDetails :=
  let action := getCodeFixActionFromPath name selfPath modulePath
                                         (project info) in
  mkDetails name ScriptElementKind_alias [] [] [action].

Definition EXTENSIONS : list str := [js ".ts"; js ".tsx"; js ".js"; js ".jsx"].

(** [getModulePathsToImport]: the paths the host lists ([modulePaths]),
    the filter callback, and the function itself. *)
Definition listedPaths (options : PluginOptions) (project : Project)
  : list str :=
  let currentDir := getCurrentDirectory project in
  match paths options with
  | Some ((_ :: _) as ps) =>
      flat_map
        (fun dirPath =>
           readDirectory project (Path.resolve cwd [currentDir; dirPath])
                         EXTENSIONS None None None)
        ps
  | _ => readDirectory project currentDir EXTENSIONS None None (Some 10)
  end.

Definition keepPath (options : PluginOptions) (filePath : str) : bool :=
  let basename := getFileNameWithoutExt filePath in
  if JS.includes basename (js ".") then false
  else if JS.truthyb (capitalizedFilesOnly options)
       then testLeadingUpper basename
       else true.

Definition getModulePathsToImport (options : PluginOptions)
           (project : Project) : list str :=
  let modulePaths := listedPaths options project in
  let filteredPaths := filter (keepPath options) modulePaths in
  StrSet.spread (StrSet.of_list filteredPaths).

(** [getCompletionEntries] *)
Definition getCompletionEntries (info : PluginCreateInfo)
  : list CompletionEntry :=
  let modulePaths :=
    getModulePathsToImport (config_options info) (project info) in
  map (fun modulePath =>
         let name := transformImportName (getFileNameWithoutExt modulePath)
                                         (config_options info) in
         mkEntry name ScriptElementKind_alias (Some modulePath)
                 (js "16" ++ name) (Some true) (Some true)
                 (Some (mkData (Some name) None (Some modulePath))))
      modulePaths.

(** [getCodeFixActionByName]; [selectedText] is its
    [getProgram()?.getSourceFile(selfPath)?.text.slice(start, end)]. *)
Definition selectedText (selfPath : str) (start stop : Z)
           (info : PluginCreateInfo) : option str :=
  match languageService_getProgram info with
  | Some program =>
      match getSourceFile program selfPath with
      | Some sourceFile => Some (JS.slice (text sourceFile) start stop)
      | None => None
      end
  | None => None
  end.

Definition getCodeFixActionByName (selfPath : str) (start stop : Z)
           (info : PluginCreateInfo) : option CodeFixAction :=
  let name := selectedText selfPath start stop info in
  match name with
  | Some ((_ :: _) as name) =>
      let modulePaths :=
        getModulePathsToImport (config_options info) (project info) in
      let modulePath :=
        find (fun filePath => str_eqb (getFileNameWithoutExt filePath) name)
             modulePaths in
      if JS.truthy modulePath then
        match modulePath with
        | Some modulePath =>
            Some (getCodeFixActionFromPath name selfPath modulePath
                                           (project info))
        | None => None
        end
      else None
  | _ => None
  end.

(** [filterNamedImportEntries]: [options.paths.map] throws a [TypeError]
    when [paths] is undefined. *)
Definition filterNamedImportEntries (entries : list CompletionEntry)
           (info : PluginCreateInfo) : Completion (list CompletionEntry) :=
  let options := config_options info in
  if negb (JS.truthyb (ignoreNamedExport options)) then Normal entries
  else
    let currentDir := getCurrentDirectory (project info) in
    match paths options with
    | None => Throw TypeError
    | Some ps =>
        let dirPaths :=
          map (fun dirPath => Path.resolve cwd [currentDir; dirPath]) ps in
        Normal
          (filter
             (fun entry =>
                negb
                  (existsb
                     (fun dirPath =>
                        match data entry with
                        | Some d =>
                            JS.truthy (exportName d) &&
                            match fileName d with
                            | Some f => JS.startsWith f dirPath
                            | None => false
                            end
                        | None => false
                        end)
                     dirPaths))
             entries)
    end.

End Plugin.

Arguments mkProject {ServerHost}.
Arguments mkInfo {ServerHost}.
Arguments getCurrentDirectory {ServerHost}.
Arguments readDirectory {ServerHost}.
Arguments getCompilerOptions {ServerHost}.
Arguments project_getProgram {ServerHost}.
Arguments projectService_host {ServerHost}.
Arguments config_options {ServerHost}.
Arguments project {ServerHost}.
Arguments languageService_getProgram {ServerHost}.
Arguments getModuleSpceifier cwd {ServerHost}.
Arguments getCodeFixActionFromPath cwd {ServerHost}.
Arguments getCompletionEntryDetails cwd {ServerHost}.
Arguments listedPaths cwd {ServerHost}.
Arguments getModulePathsToImport cwd {ServerHost}.
Arguments getCompletionEntries cwd {ServerHost}.
Arguments selectedText {ServerHost}.
Arguments getCodeFixActionByName cwd {ServerHost}.
Arguments filterNamedImportEntries cwd {ServerHost}.

(** ** The extension layer: [getCodeFixesAtPosition]

    [original] is what the host's own [getCodeFixesAtPosition] returned. *)
Definition getCodeFixesAtPosition {ServerHost : Type} (cwd : str)
           (native : CompilerOptions -> SourceFile -> str -> str -> ServerHost
                     -> Completion str)
           (info : PluginCreateInfo ServerHost)
           (original : list CodeFixAction)
           (fileName : str) (start stop : Z) : list CodeFixAction :=
  let importAction := getCodeFixActionByName cwd native fileName start stop info in
  match importAction with
  | Some importAction => importAction :: original
  | None => original
  end.

(** ** [isAutoCompletablePosition] ([Plugin.js]) *)

(** [ts.SyntaxKind], as far as the plugin tells kinds apart. *)
Inductive SyntaxKind : Type :=
| SyntaxKind_Unknown
| SyntaxKind_StringLiteral
| SyntaxKind_Other (code : Z).

Definition isStringLiteral (k : SyntaxKind) : bool :=
  match k with
  | SyntaxKind_StringLiteral => true
  | _ => false
  end.

(** [getTokenAtPosition] is [tsutils.getTokenAtPosition(...)?.kind]. *)
Definition isAutoCompletablePosition
           (getTokenAtPosition : SourceFile -> Z -> option SyntaxKind)
           (sourceFile : option SourceFile) (position : Z) : bool :=
  match sourceFile with
  | None => false
  | Some sourceFile =>
      let token :=
        match getTokenAtPosition sourceFile position with
        | Some kind => kind
        | None => SyntaxKind_Unknown
        end in
      negb (isStringLiteral token)
  end.

(** ** The extension layer: completions and completion details *)

Record CompletionInfo := mkCompletionInfo {
  isGlobalCompletion : bool;
  isMemberCompletion : bool;
  isNewIdentifierLocation : bool;
  entries : list CompletionEntry
}.

Record GetCompletionsAtPositionOptions := mkCompletionsOptions {
  triggerCharacter : option str
}.

(** The replacement of [info.languageService.getCompletionsAtPosition];
    [original] is what the host's own function returned, and the assignment
    to [original.entries] gives the same record with new entries.  The
    host's calls ([readDirectory] and the like) are taken to return: the
    one throw written out is the [TypeError] of [filterNamedImportEntries],
    which is raised before any directory is listed. *)
Definition languageService_getCompletionsAtPosition {ServerHost : Type}
           (cwd : str)
           (getTokenAtPosition : SourceFile -> Z -> option SyntaxKind)
           (info : PluginCreateInfo ServerHost)
           (original : option CompletionInfo)
           (fileName : str) (position : Z)
           (options : option GetCompletionsAtPositionOptions)
  : Completion (option CompletionInfo) :=
  match original with
  | None => Normal original
  | Some o =>
      let hasTrigger :=
        match options with
        | Some opts =>
            match triggerCharacter opts with
            | Some _ => true
            | None => false
            end
        | None => false
        end in
      let sourceFile :=
        match languageService_getProgram info with
        | Some program => getSourceFile program fileName
        | None => None
        end in
      if hasTrigger
         || negb (isAutoCompletablePosition getTokenAtPosition sourceFile
                                            position)
      then Normal original
      else
        match filterNamedImportEntries cwd (entries o) info with
        | Throw e => Throw e
        | Normal originalEntries =>
            let namespaceImportEntries := getCompletionEntries cwd info in
            Normal
              (Some (mkCompletionInfo
                       (isGlobalCompletion o) (isMemberCompletion o)
                       (isNewIdentifierLocation o)
                       (originalEntries ++ namespaceImportEntries)))
        end
  end.

(** [data?.modulePath] *)
Definition data_modulePath (data : option CompletionEntryData) : option str :=
  match data with
  | Some d => modulePath d
  | None => None
  end.

(** The replacement of [info.languageService.getCompletionEntryDetails].
    [namespaceNamedExports] is the property of that name of
    [info.config.options]; [hostDetails] is what the host's own function
    returns for the same arguments. *)
Definition languageService_getCompletionEntryDetails {ServerHost : Type}
           (cwd : str)
           (native : CompilerOptions -> SourceFile -> str -> str -> ServerHost
                     -> Completion str)
           (namespaceNamedExports : option bool)
           (info : PluginCreateInfo ServerHost)
           (hostDetails : option CompletionEntryDetails)
           (fileName : str) (position : Z) (name : str)
           (source : option str) (data : option CompletionEntryData)
  : option CompletionEntryDetails :=
  let rest :=
    match data_modulePath data with
    | None => hostDetails
    | Some modulePath =>
        Some (getCompletionEntryDetails cwd native name fileName modulePath
                                        info)
    end in
  if JS.truthyb namespaceNamedExports && JS.truthy source
     && negb (JS.truthy (data_modulePath data))
  then
    match source with
    | Some source =>
        let modulePaths :=
          getModulePathsToImport cwd (config_options info) (project info) in
        let matchingModule :=
          find (fun modulePath =>
                  let moduleBasename := getFileNameWithoutExt modulePath in
                  JS.includes source moduleBasename
                  || JS.includes modulePath source)
               modulePaths in
        match matchingModule with
        | Some ((_ :: _) as matchingModule) =>
            let namespaceName :=
              transformImportName (getFileNameWithoutExt matchingModule)
                                  (config_options info) in
            Some (getCompletionEntryDetails cwd native namespaceName fileName
                                            matchingModule info)
        | _ => rest
        end
    | None => rest
    end
  else rest.

(** ** The earlier variant kept in [Plugin.js] *)

Module Legacy.

(** [getModuleSpceifier] of the earlier variant: no native resolver, always
    [./] in front of the directory-relative path, no extension policy. *)
Definition getModuleSpceifier (cwd : str) (selfPath modulePath : str)
           (compilerOptions : CompilerOptions) : str :=
  let specifier :=
    match baseUrl compilerOptions with
    | Some ((_ :: _) as base) => Path.relative cwd base modulePath
    | _ => js "./" ++ Path.relative cwd (Path.dirname selfPath) modulePath
    end in
  getFilePathWithoutExt specifier.

(** [getModulePathsToImport] of the earlier variant: [paths] is required
    ([options.paths.flatMap] throws when it is undefined), only [.ts] and
    [.js] are asked for, and nothing is filtered. *)
Definition getModulePathsToImport {ServerHost : Type} (cwd : str)
           (options : PluginOptions) (project : Project ServerHost)
  : Completion (list str) :=
  let currentDir := getCurrentDirectory project in
  match paths options with
  | None => Throw TypeError
  | Some ps =>
      let modulePaths :=
        flat_map
          (fun dirPath =>
             readDirectory project (Path.resolve cwd [currentDir; dirPath])
                           [js ".ts"; js ".js"] None None None)
          ps in
      Normal (StrSet.spread (StrSet.of_list modulePaths))
  end.

End Legacy.

(** ** Vocabulary of the properties *)

(** A letter [a]-[z], [A]-[Z] or a digit. *)
Definition isAlnum (c : ascii) : bool := isUpper c || isLower c || isDigit c.

(** A list with every later repetition of an element left out. *)
Fixpoint firstOccurrences (l : list str) : list str :=
  match l with
  | [] => []
  | x :: l' => x :: filter (fun y => negb (str_eqb y x)) (firstOccurrences l')
  end.

(** The last character of [p] is a slash. *)
Definition endsWithSlash (p : str) : bool :=
  JS.code_is (JS.charCodeAt p (JS.len p - 1)) Path.CHAR_FORWARD_SLASH.

(** What makes [filterNamedImportEntries] drop an entry: a truthy
    [exportName] and a [fileName] that starts with a resolved root. *)
Definition suppressedBy (cwd currentDir : str) (roots : list str)
           (e : CompletionEntry) : Prop :=
  exists d f root,
    data e = Some d /\ JS.truthy (exportName d) = true /\
    fileName d = Some f /\ In root roots /\
    JS.startsWith f (Path.resolve cwd [currentDir; root]) = true.

(** The character of [p] at index [j] is a slash. *)
Definition isSlashAt (p : str) (j : Z) : bool :=
  JS.code_is (JS.charCodeAt p j) Path.CHAR_FORWARD_SLASH.

(** [sp] and [e] delimit the last component of [p]: the characters from
    [sp] to [e - 1] are not slashes, those from [e] on are, and [sp] is the
    start of the path or follows a slash. *)
Definition lastComponent (p : str) (sp e : Z) : Prop :=
  0 <= sp < e /\ e <= JS.len p /\
  (forall j, sp <= j < e -> isSlashAt p j = false) /\
  (forall j, e <= j < JS.len p -> isSlashAt p j = true) /\
  (sp = 0 \/ isSlashAt p (sp - 1) = true).

(** The character of [p] at index [j] is a dot. *)
Definition isDotAt (p : str) (j : Z) : bool :=
  JS.code_is (JS.charCodeAt p j) Path.CHAR_DOT.

(** What the scan of [extname] knows about dots once it has visited the
    indices from [k] on: [startDot] is the last dot of the component (or
    [-1] when there is none), [preDotState] is 0 when nothing was visited
    before that dot, and 1 only when the character at [k] is a dot. *)
Definition ext_dots (p : str) (k : Z) (st : Path.ExtState) : Prop :=
  (Path.startDot st = -1 ->
   Path.preDotState st = 0 /\
   forall j, k <= j < Path.ext_end st -> isDotAt p j = false) /\
  (Path.startDot st <> -1 ->
   isDotAt p (Path.startDot st) = true /\ k <= Path.startDot st /\
   (forall j, Path.startDot st < j < Path.ext_end st -> isDotAt p j = false)
   /\
   (Path.preDotState st = 0 -> Path.startDot st = k) /\
   (Path.preDotState st = 1 -> isDotAt p k = true)).

(** The decorated completion listing goes past its early return: no
    trigger character, and a source file whose token at the position is not
    a string literal. *)
Definition completionsActive {ServerHost : Type}
           (getTokenAtPosition : SourceFile -> Z -> option SyntaxKind)
           (info : PluginCreateInfo ServerHost) (fileName : str) (position : Z)
           (options : option GetCompletionsAtPositionOptions) : Prop :=
  (options = None \/
   exists opts, options = Some opts /\ triggerCharacter opts = None) /\
  exists program sourceFile,
    languageService_getProgram info = Some program /\
    getSourceFile program fileName = Some sourceFile /\
    getTokenAtPosition sourceFile position <> Some SyntaxKind_StringLiteral.

(** The test of the completion-detail redirection on one module path. *)
Definition sourceMatches (source modulePath : str) : bool :=
  JS.includes source (getFileNameWithoutExt modulePath)
  || JS.includes modulePath source.


(** The text [import * as <Name> from "<specifier>";] and a line feed. *)
Definition importStatement (name specifier : str) : str :=
  js "import * as " ++ name ++ js " from " ++ [CHAR_DOUBLE_QUOTE] ++ specifier
     ++ [CHAR_DOUBLE_QUOTE] ++ js ";" ++ [CHAR_LINE_FEED].

(** One change on [file], with one insertion of [newText] at offset 0. *)
Definition isPrependEdit (file newText : str) (a : CodeFixAction) : Prop :=
  changes a = [mkFileTextChanges file [mkTextChange (mkSpan 0 0) newText]].

(** An entry without a truthy [exportName] in its payload. *)
Definition lacksExportName (e : CompletionEntry) : bool :=
  match data e with
  | Some d =>
      match exportName d with
      | None => true
      | Some _ => false
      end
  | None => true
  end.

(** The extension the fallback appends under the ending policy. *)
Definition appendedExtension (co : CompilerOptions) (modulePath : str) : str :=
  if opt_is (importModuleSpecifierEnding co) (js "js")
  then Path.extname modulePath
  else if opt_is (importModuleSpecifierEnding co) (js "minimal") then []
  else Path.extname modulePath.

Definition noBackslash (s : str) : Prop :=
  Forall (fun c => c <> CHAR_BACKWARD_SLASH) s.

(** What the scan of [extname] keeps true with [k] indices left to visit:
    [ext_end] stays within the path, a recorded dot lies at or after the
    next index, and [preDotState] leaves 0 only with the dot strictly after
    it. *)
Definition ext_safe (n k : Z) (st : Path.ExtState) : Prop :=
  -1 <= Path.ext_end st <= n /\
  (Path.startDot st = -1 \/ k <= Path.startDot st) /\
  (Path.preDotState st = 0 \/ k + 1 <= Path.startDot st).

(** The scan of a path that starts with [./]: either only the leading dot
    was read (the rest is slashes), or a recorded dot lies after the [./]. *)
Definition ext_init : Path.ExtState := Path.mkExt (-1) 0 (-1) true 0.
Definition ext_only_dot : Path.ExtState := Path.mkExt 0 0 1 false 0.

Definition ext_after_prefix (n : Z) (st : Path.ExtState) : Prop :=
  (Path.startDot st = -1 \/ 2 <= Path.startDot st) /\
  -1 <= Path.ext_end st <= n.

(** ** A small project for the examples *)

Definition demo_sourceFile : SourceFile :=
  mkSourceFile (js "/proj/src/a/Foo.ts") (js "Bar.make()").

Definition demo_program : Program :=
  mkProgram (fun fileName =>
               if str_eqb fileName (js "/proj/src/a/Foo.ts")
               then Some demo_sourceFile else None).

Definition demo_listing (dir : str) (_ : list str) (_ _ : option (list str))
           (_ : option Z) : list str :=
  if str_eqb dir (js "/proj/src/b")
  then [js "/proj/src/b/Bar.ts"; js "/proj/src/b/Bar.test.ts"; js "/proj/src/b/util.ts"]
  else if str_eqb dir (js "/proj/src")
  then [js "/proj/src/b/Bar.ts"; js "/proj/src/a/Foo.ts"]
  else [].

Definition demo_project : Project unit :=
  mkProject (js "/proj") demo_listing (mkCompilerOptions None None)
            (Some demo_program) (Some tt).

Definition throwing_native (_ : CompilerOptions) (_ : SourceFile) (_ _ : str)
           (_ : unit) : Completion str :=
  Throw (HostError (js "Debug Failure")).

Definition package_native (_ : CompilerOptions) (_ : SourceFile) (_ _ : str)
           (_ : unit) : Completion str :=
  Normal (js "@proj/b/Bar").

Definition demo_tokens (_ : SourceFile) (position : Z) : option SyntaxKind :=
  if position <? 3 then Some (SyntaxKind_Other 80)
  else if position <? 10 then Some SyntaxKind_StringLiteral
  else None.

Definition host_entry : CompletionEntry :=
  mkEntry (js "make") (js "function") (Some (js "./b/Bar")) (js "11") None None
          (Some (mkData (Some (js "make")) (Some (js "/proj/src/b/Bar.ts"))
                        None)).

Definition host_completions : CompletionInfo :=
  mkCompletionInfo true false false [host_entry].

Definition bar_entry : CompletionEntry :=
  mkEntry (js "Bar") ScriptElementKind_alias (Some (js "/proj/src/b/Bar.ts"))
          (js "16Bar") (Some true) (Some true)
          (Some (mkData (Some (js "Bar")) None (Some (js "/proj/src/b/Bar.ts")))).

Definition demo_info : PluginCreateInfo unit :=
  mkInfo (mkOptions (Some [js "src/b"]) None None None) demo_project
         (Some demo_program).

Definition entry_in_sibling_directory : CompletionEntry :=
  mkEntry (js "helper") (js "function") None (js "11") None None
          (Some (mkData (Some (js "helper"))
                        (Some (js "/proj/src/bar/Helper.ts")) None)).

Definition twin_listing (dir : str) (_ : list str) (_ _ : option (list str))
           (_ : option Z) : list str :=
  [js "/proj/src/util.ts"; js "/proj/src/a/Bar.tsx"; js "/proj/src/b/Bar.ts"].

Definition twin_info : PluginCreateInfo unit :=
  mkInfo (mkOptions None None None None)
         (mkProject (js "/proj") twin_listing (mkCompilerOptions None None)
                    (Some demo_program) (Some tt))
         (Some demo_program).

Ltac break_if :=
  match goal with
  | |- context [if ?b then _ else _] =>
      let E := fresh "E" in destruct b eqn:E
  end.

Ltac each_ascii c :=
  destruct c as [[] [] [] [] [] [] [] []]; vm_compute; reflexivity.

(** * Properties *)

(** ** The path model on documented inputs of [path.posix] *)

Example relative_doc_example :
  forall cwd,
    Path.relative cwd (js "/data/orandea/test/aaa") (js "/data/orandea/impl/bbb")
    = js "../../impl/bbb".
Proof. intros; vm_compute; reflexivity. Qed.

Example resolve_doc_examples :
  forall cwd,
    Path.resolve cwd [js "/foo/bar"; js "./baz"] = js "/foo/bar/baz" /\
    Path.resolve cwd [js "/foo/bar"; js "/tmp/file/"] = js "/tmp/file" /\
    Path.resolve (js "/home/myself/node")
                 [js "wwwroot"; js "static_files/png/"; js "../gif/image.gif"]
    = js "/home/myself/node/wwwroot/static_files/gif/image.gif".
Proof. intros; repeat split; vm_compute; reflexivity. Qed.

Example extname_doc_examples :
  map Path.extname
      [js "index.html"; js "index.coffee.md"; js "index."; js "index";
       js ".index"; js ".index.md"]
  = [js ".html"; js ".md"; js "."; []; []; js ".md"].
Proof. vm_compute; reflexivity. Qed.

Example basename_doc_examples :
  Path.basename (js "/foo/bar/baz/asdf/quux.html") [] = js "quux.html" /\
  Path.basename (js "/foo/bar/baz/asdf/quux.html") (js ".html") = js "quux".
Proof. split; vm_compute; reflexivity. Qed.

Example dirname_doc_example :
  Path.dirname (js "/foo/bar/baz/asdf/quux") = js "/foo/bar/baz/asdf".
Proof. vm_compute; reflexivity. Qed.

Example getFileNameWithoutExt_examples :
  map getFileNameWithoutExt
      [js "/proj/src/Foo.test.ts"; js "/proj/src/Foo.ts"; js "/proj/stateMachine.tsx"]
  = [js "Foo.test"; js "Foo"; js "stateMachine"].
Proof. vm_compute; reflexivity. Qed.

(** ** Basic facts *)

Lemma str_eqb_eq (a b : str) : str_eqb a b = true <-> a = b.
Proof.
  unfold str_eqb. destruct (list_eq_dec ascii_dec a b); split; intros;
    congruence.
Qed.

Lemma str_eqb_neq (a b : str) : str_eqb a b = false <-> a <> b.
Proof.
  unfold str_eqb. destruct (list_eq_dec ascii_dec a b); split; intros;
    congruence.
Qed.

Lemma str_eqb_refl (a : str) : str_eqb a a = true.
Proof. apply str_eqb_eq; reflexivity. Qed.

(** ** C1: the relative case of the fallback *)

(** C1.  With no [baseUrl], importing [/proj/src/b/Bar.ts] from
    [/proj/src/a/Foo.ts] gives [../b/Bar] under the ["minimal"] ending and
    [../b/Bar.ts] under ["js"], an unset ending and every other value. *)
Theorem fallback_relative_case :
  forall (cwd : str) (ending : option str),
    fallbackSpecifier cwd (js "/proj/src/a/Foo.ts") (js "/proj/src/b/Bar.ts")
                      (mkCompilerOptions None ending)
    = if opt_is ending (js "minimal") then js "../b/Bar" else js "../b/Bar.ts".
Proof.
  intros cwd ending.
  unfold fallbackSpecifier; cbn [baseUrl importModuleSpecifierEnding].
  destruct (opt_is ending (js "js")) eqn:Hjs.
  - destruct ending as [e|]; [|discriminate].
    cbn [opt_is] in *. apply str_eqb_eq in Hjs; subst e.
    vm_compute; reflexivity.
  - destruct (opt_is ending (js "minimal")); vm_compute; reflexivity.
Qed.

Example fallback_relative_case_js :
  forall cwd,
    fallbackSpecifier cwd (js "/proj/src/a/Foo.ts") (js "/proj/src/b/Bar.ts")
                      (mkCompilerOptions None (Some (js "js")))
    = js "../b/Bar.ts".
Proof. intros; vm_compute; reflexivity. Qed.

Example fallback_relative_case_minimal :
  forall cwd,
    fallbackSpecifier cwd (js "/proj/src/a/Foo.ts") (js "/proj/src/b/Bar.ts")
                      (mkCompilerOptions None (Some (js "minimal")))
    = js "../b/Bar".
Proof. intros; vm_compute; reflexivity. Qed.

Example fallback_relative_case_unset :
  forall cwd,
    fallbackSpecifier cwd (js "/proj/src/a/Foo.ts") (js "/proj/src/b/Bar.ts")
                      (mkCompilerOptions None None)
    = js "../b/Bar.ts".
Proof. intros; vm_compute; reflexivity. Qed.

(** ** C2: the native resolver throws *)

Lemma getModuleSpceifier_no_native :
  forall cwd ServerHost native selfPath modulePath (p : Project ServerHost),
    (match project_getProgram p with
     | Some program => getSourceFile program selfPath
     | None => None
     end = None \/ projectService_host p = None) ->
    getModuleSpceifier cwd native selfPath modulePath p
    = fallbackSpecifier cwd selfPath modulePath (getCompilerOptions p).
Proof.
  intros cwd SH native selfPath modulePath p H.
  unfold getModuleSpceifier.
  destruct H as [H | H]; rewrite H; [reflexivity|].
  destruct (match project_getProgram p with
            | Some program => getSourceFile program selfPath
            | None => None
            end); reflexivity.
Qed.

(** C2.  When the call of the native resolver throws, [getModuleSpceifier]
    returns a value, and that value is the result of the fallback on the
    same paths and compiler options. *)
Theorem native_throw_gives_fallback :
  forall cwd ServerHost native selfPath modulePath (p : Project ServerHost)
         program sourceFile host e,
    project_getProgram p = Some program ->
    getSourceFile program selfPath = Some sourceFile ->
    projectService_host p = Some host ->
    native (getCompilerOptions p) sourceFile selfPath modulePath host = Throw e ->
    getModuleSpceifier cwd native selfPath modulePath p
    = fallbackSpecifier cwd selfPath modulePath (getCompilerOptions p).
Proof.
  intros cwd SH native selfPath modulePath p program sourceFile host e
         Hprog Hsf Hhost Hthrow.
  unfold getModuleSpceifier.
  rewrite Hprog, Hsf, Hhost, Hthrow.
  reflexivity.
Qed.

Lemma native_throw_gives_fallback_witness :
  getModuleSpceifier (js "/home/u") throwing_native (js "/proj/src/a/Foo.ts")
                     (js "/proj/src/b/Bar.ts") demo_project
  = fallbackSpecifier (js "/home/u") (js "/proj/src/a/Foo.ts")
                      (js "/proj/src/b/Bar.ts") (mkCompilerOptions None None).
Proof.
  apply (native_throw_gives_fallback
           (js "/home/u") unit throwing_native (js "/proj/src/a/Foo.ts")
           (js "/proj/src/b/Bar.ts") demo_project demo_program demo_sourceFile
           tt (HostError (js "Debug Failure")));
    reflexivity.
Defined.

(** ** C6: name transform *)

(** C6.  ["state_machine"] becomes ["StateMachine"] under ["PascalCase"] and
    ["stateMachine"] under ["camelCase"]; with [nameTransform] absent every
    basename is returned as it is. *)
Theorem transformImportName_cases :
  (forall p i c,
      transformImportName (js "state_machine")
                          (mkOptions p i (Some (js "PascalCase")) c)
      = js "StateMachine") /\
  (forall p i c,
      transformImportName (js "state_machine")
                          (mkOptions p i (Some (js "camelCase")) c)
      = js "stateMachine") /\
  (forall name p i c,
      transformImportName name (mkOptions p i None c) = name).
Proof.
  repeat split; intros; vm_compute; reflexivity.
Qed.

(** ** C7: the generated edit *)

Lemma getCodeFixActionFromPath_edit :
  forall cwd ServerHost native name selfPath modulePath (p : Project ServerHost),
    isPrependEdit selfPath
      (importStatement name (getModuleSpceifier cwd native selfPath modulePath p))
      (getCodeFixActionFromPath cwd native name selfPath modulePath p).
Proof.
  intros. unfold isPrependEdit, getCodeFixActionFromPath, importStatement.
  cbn [changes]. repeat (rewrite <- app_assoc; cbn [app]). reflexivity.
Qed.

(** C7.  The action built by [getCodeFixActionFromPath], the single code
    action of a completion detail, and every action returned by the code-fix
    path carry one change on the importing file with one text change: span
    start 0, length 0, and the import statement as text. *)
Theorem generated_edit_format :
  forall cwd ServerHost native name selfPath modulePath start stop
         (info : PluginCreateInfo ServerHost),
    isPrependEdit selfPath
      (importStatement
         name (getModuleSpceifier cwd native selfPath modulePath (project info)))
      (getCodeFixActionFromPath cwd native name selfPath modulePath
                                (project info)) /\
    (exists action,
        codeActions (getCompletionEntryDetails cwd native name selfPath
                                               modulePath info) = [action] /\
        isPrependEdit selfPath
          (importStatement
             name
             (getModuleSpceifier cwd native selfPath modulePath (project info)))
          action) /\
    match getCodeFixActionByName cwd native selfPath start stop info with
    | Some action =>
        exists name' modulePath',
          selectedText selfPath start stop info = Some name' /\
          isPrependEdit selfPath
            (importStatement
               name'
               (getModuleSpceifier cwd native selfPath modulePath'
                                   (project info)))
            action
    | None => True
    end.
Proof.
  intros. split; [apply getCodeFixActionFromPath_edit|]. split.
  - eexists; split; [reflexivity|]. apply getCodeFixActionFromPath_edit.
  - unfold getCodeFixActionByName.
    destruct (selectedText selfPath start stop info) as [[|c nm]|]; trivial.
    destruct (find _ _) as [[|d mp]|]; cbn [JS.truthy]; trivial.
    exists (c :: nm), (d :: mp).
    split; [reflexivity | apply getCodeFixActionFromPath_edit].
Qed.

Example generated_edit_text :
  string_of_list_ascii (importStatement (js "Bar") (js "../b/Bar.ts"))
  = ("import * as Bar from " ++ String CHAR_DOUBLE_QUOTE "../b/Bar.ts"
       ++ String CHAR_DOUBLE_QUOTE ";" ++ String CHAR_LINE_FEED "")%string.
Proof. vm_compute; reflexivity. Qed.

(** ** C9 and C10: [filterNamedImportEntries] *)

(** C9.  With [ignoreNamedExport] true and [paths] absent the call throws,
    whatever the entries; with [ignoreNamedExport] false or unset it returns
    the entries as they are, whatever [paths] is; with [ignoreNamedExport]
    true and [paths] present it returns. *)
Theorem filterNamedImportEntries_paths_precondition :
  forall cwd ServerHost entries n c (p : Project ServerHost) prog,
    filterNamedImportEntries
      cwd entries (mkInfo (mkOptions None (Some true) n c) p prog)
    = Throw TypeError /\
    (forall ps,
        filterNamedImportEntries
          cwd entries (mkInfo (mkOptions ps (Some false) n c) p prog)
        = Normal entries) /\
    (forall ps,
        filterNamedImportEntries
          cwd entries (mkInfo (mkOptions ps None n c) p prog)
        = Normal entries) /\
    (forall ps, exists out,
        filterNamedImportEntries
          cwd entries (mkInfo (mkOptions (Some ps) (Some true) n c) p prog)
        = Normal out).
Proof.
  intros. repeat split; intros; try reflexivity.
  eexists. reflexivity.
Qed.

Lemma filter_filter_keep {A : Type} (keep sel : A -> bool) (l : list A) :
  (forall x, sel x = true -> keep x = true) ->
  filter sel (filter keep l) = filter sel l.
Proof.
  intros H. induction l as [|x l IH]; [reflexivity|].
  cbn [filter]. destruct (keep x) eqn:K; cbn [filter].
  - rewrite IH. reflexivity.
  - destruct (sel x) eqn:Sx; [|exact IH].
    rewrite (H x Sx) in K. discriminate.
Qed.

(** C10.  With [ignoreNamedExport] set, the call throws exactly when [paths]
    is absent; otherwise the entries that lack [exportName] are the same in
    the result as in the input (same entries, same order, same number of
    times), wherever their file lies. *)
Theorem filterNamedImportEntries_keeps_unnamed :
  forall cwd ServerHost entries ps n c (p : Project ServerHost) prog,
    match filterNamedImportEntries
            cwd entries (mkInfo (mkOptions ps (Some true) n c) p prog) with
    | Normal out =>
        ps <> None /\
        filter lacksExportName out = filter lacksExportName entries
    | Throw _ => ps = None
    end.
Proof.
  intros. unfold filterNamedImportEntries.
  cbn [config_options ignoreNamedExport JS.truthyb negb paths].
  destruct ps as [ps|]; [|reflexivity].
  split; [discriminate|].
  apply filter_filter_keep.
  intros e He. unfold lacksExportName in He.
  destruct (data e) as [d|].
  - destruct (exportName d); [discriminate|].
    cbn [JS.truthy andb].
    induction (map _ ps) as [|x l IH]; [reflexivity|exact IH].
  - induction (map _ ps) as [|x l IH]; [reflexivity|exact IH].
Qed.

Example filterNamedImportEntries_example :
  let named :=
    mkEntry (js "make") (js "function") (Some (js "./b/Bar")) (js "11") None
            None
            (Some (mkData (Some (js "make")) (Some (js "/proj/src/b/Bar.ts"))
                          None)) in
  let unnamed :=
    mkEntry (js "Bar") (js "module") None (js "11") None None
            (Some (mkData None (Some (js "/proj/src/b/Bar.ts")) None)) in
  let outside :=
    mkEntry (js "run") (js "function") None (js "11") None None
            (Some (mkData (Some (js "run")) (Some (js "/proj/src/a/Foo.ts"))
                          None)) in
  let bare := mkEntry (js "x") (js "var") None (js "11") None None None in
  filterNamedImportEntries
    (js "/home/u") [named; unnamed; outside; bare]
    (mkInfo (mkOptions (Some [js "src/b"]) (Some true) None None)
            demo_project (Some demo_program))
  = Normal [unnamed; outside; bare].
Proof. vm_compute; reflexivity. Qed.

(** ** C5: module discovery *)

Lemma StrSet_has_In (s : list str) (x : str) :
  StrSet.has s x = true <-> In x s.
Proof.
  induction s as [|y s IH]; cbn [StrSet.has In].
  - split; [discriminate|tauto].
  - rewrite orb_true_iff, IH, str_eqb_eq. tauto.
Qed.

Lemma StrSet_add_In (s : list str) (x y : str) :
  In y (StrSet.add s x) <-> In y s \/ y = x.
Proof.
  unfold StrSet.add. destruct (StrSet.has s x) eqn:H.
  - apply StrSet_has_In in H. split; [tauto|].
    intros [Hy | ->]; assumption.
  - rewrite in_app_iff. cbn [In]. intuition congruence.
Qed.

Lemma StrSet_add_NoDup (s : list str) (x : str) :
  NoDup s -> NoDup (StrSet.add s x).
Proof.
  intros Hs. unfold StrSet.add. destruct (StrSet.has s x) eqn:H; [exact Hs|].
  assert (Hx : ~ In x s).
  { intros Hin. apply StrSet_has_In in Hin. congruence. }
  clear H. induction Hs as [|y s Hy Hs IH]; cbn [app].
  - constructor; [intros []|constructor].
  - constructor.
    + rewrite in_app_iff. cbn [In] in *. intuition congruence.
    + apply IH. cbn [In] in Hx. tauto.
Qed.

Lemma StrSet_fold_NoDup (l s : list str) :
  NoDup s -> NoDup (fold_left StrSet.add l s).
Proof.
  revert s. induction l as [|x l IH]; intros s Hs; cbn [fold_left].
  - exact Hs.
  - apply IH, StrSet_add_NoDup, Hs.
Qed.

Lemma StrSet_fold_In (l s : list str) (y : str) :
  In y (fold_left StrSet.add l s) <-> In y s \/ In y l.
Proof.
  revert s. induction l as [|x l IH]; intros s; cbn [fold_left In].
  - tauto.
  - rewrite IH, StrSet_add_In. intuition congruence.
Qed.

Lemma StrSet_of_list_NoDup (l : list str) : NoDup (StrSet.of_list l).
Proof. apply StrSet_fold_NoDup. constructor. Qed.

Lemma StrSet_of_list_In (l : list str) (y : str) :
  In y (StrSet.of_list l) <-> In y l.
Proof. unfold StrSet.of_list. rewrite StrSet_fold_In. cbn [In]. tauto. Qed.





Example discovery_overlapping_roots :
  getModulePathsToImport
    (js "/home/u") (mkOptions (Some [js "src"; js "src/b"]) None None None)
    demo_project
  = [js "/proj/src/b/Bar.ts"; js "/proj/src/a/Foo.ts"; js "/proj/src/b/util.ts"]
  /\
  getModulePathsToImport
    (js "/home/u")
    (mkOptions (Some [js "src"; js "src/b"]) None None (Some true))
    demo_project
  = [js "/proj/src/b/Bar.ts"; js "/proj/src/a/Foo.ts"].
Proof. split; vm_compute; reflexivity. Qed.

(** ** C8: the code fix by name *)

Lemma getFileNameWithoutExt_empty : getFileNameWithoutExt [] = [].
Proof. reflexivity. Qed.

Lemma getCodeFixActionByName_unfold :
  forall cwd ServerHost native selfPath start stop
         (info : PluginCreateInfo ServerHost),
    getCodeFixActionByName cwd native selfPath start stop info =
    match selectedText selfPath start stop info with
    | Some ((_ :: _) as name) =>
        match find (fun filePath =>
                      str_eqb (getFileNameWithoutExt filePath) name)
                   (getModulePathsToImport cwd (config_options info)
                                           (project info)) with
        | Some modulePath =>
            Some (getCodeFixActionFromPath cwd native name selfPath modulePath
                                           (project info))
        | None => None
        end
    | _ => None
    end.
Proof.
  intros. unfold getCodeFixActionByName.
  destruct (selectedText selfPath start stop info) as [[|ch name]|];
    try reflexivity.
  destruct (find _ _) as [[|d mp]|] eqn:Hfind; try reflexivity.
  apply find_some in Hfind. destruct Hfind as [_ Heq].
  apply str_eqb_eq in Heq. rewrite getFileNameWithoutExt_empty in Heq.
  discriminate.
Qed.

(** C8.  [getCodeFixActionByName] returns null exactly when the selected
    text is unavailable, or empty, or equal to the basename-without-extension
    of no discovered module, and then the host's fixes come back as they
    are; when it returns an action, the action is built for a discovered
    module whose basename-without-extension equals the selected text, and
    is put in front of the host's fixes. *)
Theorem codefix_exact_basename_match :
  forall cwd ServerHost native selfPath start stop
         (info : PluginCreateInfo ServerHost),
    let discovered :=
      getModulePathsToImport cwd (config_options info) (project info) in
    let selected := selectedText selfPath start stop info in
    (getCodeFixActionByName cwd native selfPath start stop info = None <->
     selected = None \/ selected = Some [] \/
     exists name,
       selected = Some name /\
       forall modulePath,
         In modulePath discovered -> getFileNameWithoutExt modulePath <> name)
    /\
    match getCodeFixActionByName cwd native selfPath start stop info with
    | Some action =>
        (exists name modulePath,
            selected = Some name /\ name <> [] /\
            In modulePath discovered /\
            getFileNameWithoutExt modulePath = name /\
            action = getCodeFixActionFromPath cwd native name selfPath
                                              modulePath (project info)) /\
        forall original,
          getCodeFixesAtPosition cwd native info original selfPath start stop
          = action :: original
    | None =>
        forall original,
          getCodeFixesAtPosition cwd native info original selfPath start stop
          = original
    end.
Proof.
  intros. subst discovered selected.
  unfold getCodeFixesAtPosition.
  rewrite getCodeFixActionByName_unfold.
  destruct (selectedText selfPath start stop info) as [[|ch name]|].
  - split; [|reflexivity]. split; [|reflexivity].
    intros _. right; left; reflexivity.
  - destruct (find _ _) as [mp|] eqn:Hfind.
    + apply find_some in Hfind. destruct Hfind as [Hin Heq].
      apply str_eqb_eq in Heq. split.
      * split; [discriminate|].
        intros [H | [H | [nm [Hnm Hall]]]]; try discriminate.
        injection Hnm as <-. exfalso. exact (Hall mp Hin Heq).
      * split; [|reflexivity].
        exists (ch :: name), mp. repeat split; try assumption. discriminate.
    + split; [|reflexivity]. split; [|reflexivity]. intros _. right; right.
      exists (ch :: name). split; [reflexivity|].
      intros mp Hin Heq.
      pose proof (find_none _ _ Hfind mp Hin) as Hf. cbv beta in Hf.
      rewrite Heq, str_eqb_refl in Hf. discriminate.
  - split; [|reflexivity]. split; [|reflexivity].
    intros _. left; reflexivity.
Qed.

Example codefix_by_name_examples :
  (* "Bar" selected in "Bar.make()" *)
  option_map description
             (getCodeFixActionByName (js "/home/u") throwing_native
                                     (js "/proj/src/a/Foo.ts") 0 3 demo_info)
  = Some (importStatement (js "Bar") (js "../b/Bar.ts")) /\
  (* "make" names no module; "bar" differs from "Bar" in case *)
  getCodeFixActionByName (js "/home/u") throwing_native
                         (js "/proj/src/a/Foo.ts") 4 8 demo_info = None /\
  (* empty selection *)
  getCodeFixActionByName (js "/home/u") throwing_native
                         (js "/proj/src/a/Foo.ts") 3 3 demo_info = None /\
  (* no source file *)
  getCodeFixActionByName (js "/home/u") throwing_native
                         (js "/proj/src/a/Other.ts") 0 3 demo_info = None.
Proof. repeat split; vm_compute; reflexivity. Qed.

(** ** Loops and slices *)

Lemma for_down_rule {S : Type} (lo : Z) (body : Z -> S -> S * bool)
      (I : nat -> S -> Prop) (Q : S -> Prop) :
  (forall k st,
      I (Datatypes.S k) st ->
      if snd (body (lo + Z.of_nat k) st)
      then Q (fst (body (lo + Z.of_nat k) st))
      else I k (fst (body (lo + Z.of_nat k) st))) ->
  (forall st, I O st -> Q st) ->
  forall n st, I n st -> Q (JS.for_down lo n body st).
Proof.
  intros Hstep Hend. induction n as [|k IH]; intros st Hst; cbn [JS.for_down].
  - apply Hend, Hst.
  - specialize (Hstep k st Hst).
    destruct (body (lo + Z.of_nat k) st) as [st' brk]. cbn [fst snd] in Hstep.
    destruct brk; [exact Hstep | apply IH, Hstep].
Qed.

Lemma for_up_invariant {S : Type} (body : Z -> S -> S * bool) (I : S -> Prop) :
  (forall i st, I st -> I (fst (body i st))) ->
  forall n i st, I st -> I (JS.for_up i n body st).
Proof.
  intros Hstep. induction n as [|k IH]; intros i st Hst; cbn [JS.for_up].
  - exact Hst.
  - specialize (Hstep i st Hst).
    destruct (body i st) as [st' brk]. cbn [fst] in Hstep.
    destruct brk; [exact Hstep | apply IH, Hstep].
Qed.

Section Chars.

Variable P : ascii -> Prop.

Lemma Forall_firstn (n : nat) (l : str) : Forall P l -> Forall P (firstn n l).
Proof.
  intros H. rewrite <- (firstn_skipn n l) in H.
  apply Forall_app in H. apply H.
Qed.

Lemma Forall_skipn (n : nat) (l : str) : Forall P l -> Forall P (skipn n l).
Proof.
  intros H. rewrite <- (firstn_skipn n l) in H.
  apply Forall_app in H. apply H.
Qed.

Lemma slice_Forall (s : str) (a b : Z) :
  Forall P s -> Forall P (JS.slice s a b).
Proof. intros H. unfold JS.slice. apply Forall_firstn, Forall_skipn, H. Qed.

Lemma sliceFrom_Forall (s : str) (a : Z) :
  Forall P s -> Forall P (JS.sliceFrom s a).
Proof. intros H. unfold JS.sliceFrom. apply Forall_skipn, H. Qed.

End Chars.

Lemma slice_length_le (s : str) (a b : Z) :
  (List.length (JS.slice s a b) <= List.length s)%nat.
Proof.
  unfold JS.slice. rewrite length_firstn, length_skipn. lia.
Qed.

Lemma slice_length_bound (s : str) (a b : Z) :
  0 <= a -> 0 <= b <= JS.len s ->
  (List.length (JS.slice s a b) <= Z.to_nat (b - a))%nat.
Proof.
  intros Ha Hb. unfold JS.slice, JS.clamp, JS.len in *.
  rewrite length_firstn.
  destruct (a <? 0) eqn:Ea; [lia|]. destruct (b <? 0) eqn:Eb; [lia|]. lia.
Qed.

Lemma slice_prefix (s : str) (k : Z) :
  0 <= k -> JS.slice s 0 k = firstn (Z.to_nat k) s.
Proof.
  intros Hk. unfold JS.slice, JS.clamp, JS.len.
  destruct (k <? 0) eqn:Ek; [lia|]. cbn [Z.ltb Z.compare].
  replace (Z.to_nat (Z.min 0 (Z.of_nat (List.length s)))) with O by lia.
  cbn [skipn].
  destruct (Z_le_gt_dec k (Z.of_nat (List.length s))) as [Hle | Hgt].
  - f_equal. lia.
  - rewrite !firstn_all2 by lia. reflexivity.
Qed.

(** ** [extname] and [getFilePathWithoutExt] *)

Lemma extname_Forall (P : ascii -> Prop) (p : str) :
  Forall P p -> Forall P (Path.extname p).
Proof.
  intros H. unfold Path.extname.
  destruct (_ || _); [constructor | apply slice_Forall, H].
Qed.

Lemma extname_length_le (p : str) :
  (List.length (Path.extname p) <= List.length p)%nat.
Proof.
  unfold Path.extname.
  destruct (_ || _); [cbn; lia | apply slice_length_le].
Qed.

Lemma getFilePathWithoutExt_firstn (s : str) :
  getFilePathWithoutExt s
  = firstn (List.length s - List.length (Path.extname s)) s.
Proof.
  unfold getFilePathWithoutExt.
  pose proof (extname_length_le s) as Hle.
  rewrite slice_prefix by (unfold JS.len; lia).
  f_equal. unfold JS.len. lia.
Qed.

Lemma getFilePathWithoutExt_Forall (P : ascii -> Prop) (s : str) :
  Forall P s -> Forall P (getFilePathWithoutExt s).
Proof. intros H. rewrite getFilePathWithoutExt_firstn. apply Forall_firstn, H. Qed.

Lemma extname_scan_safe (p : str) :
  ext_safe (JS.len p) 0 (Path.extname_scan p).
Proof.
  unfold Path.extname_scan.
  apply (for_down_rule
           0 (Path.extname_body p)
           (fun k st => (k <= List.length p)%nat /\
                        ext_safe (JS.len p) (Z.of_nat k) st)
           (ext_safe (JS.len p) 0)).
  - intros k st [Hk Hs]. unfold Path.extname_body.
    destruct st as [sd sp e m pd]. unfold ext_safe, JS.len in *.
    cbn [Path.startDot Path.startPart Path.ext_end Path.ext_matchedSlash
         Path.preDotState] in *.
    repeat break_if;
      cbn [fst snd Path.startDot Path.startPart Path.ext_end
           Path.ext_matchedSlash Path.preDotState] in *;
      try discriminate; lia.
  - intros st [_ Hs]. exact Hs.
  - split; [lia|]. unfold ext_safe, JS.len. cbn. lia.
Qed.

(** The extension never takes the first character of a path. *)
Lemma extname_shorter (c : ascii) (s : str) :
  (List.length (Path.extname (c :: s)) <= List.length s)%nat.
Proof.
  pose proof (extname_scan_safe (c :: s)) as (He & Hsd & Hpd).
  unfold Path.extname.
  destruct (_ || _) eqn:Hc; [cbn; lia|].
  etransitivity; [apply slice_length_bound|]; unfold JS.len in *;
    cbn [List.length] in *; lia.
Qed.

Lemma getFilePathWithoutExt_head (c : ascii) (s : str) :
  exists rest, getFilePathWithoutExt (c :: s) = c :: rest.
Proof.
  rewrite getFilePathWithoutExt_firstn.
  pose proof (extname_shorter c s) as H.
  cbn [List.length] in *.
  destruct (S (List.length s) - List.length (Path.extname (c :: s)))%nat
    as [|m] eqn:Hm; [lia|].
  cbn [firstn]. eexists; reflexivity.
Qed.

Lemma extname_scan_dot_slash (r : str) :
  let p := Path.CHAR_DOT :: Path.CHAR_FORWARD_SLASH :: r in
  Path.extname_scan p = ext_only_dot \/
  ext_after_prefix (JS.len p) (Path.extname_scan p).
Proof.
  intros p. unfold Path.extname_scan.
  apply (for_down_rule
           0 (Path.extname_body p)
           (fun k st =>
              (k <= List.length p)%nat /\
              ((1 <= k)%nat /\ st = ext_init \/
               k = O /\ st = ext_only_dot \/
               (2 <= k)%nat /\ Path.ext_matchedSlash st = false /\
               ext_after_prefix (JS.len p) st))
           (fun st => st = ext_only_dot \/ ext_after_prefix (JS.len p) st)).
  - intros k st [Hk Hs]. subst p. cbn [List.length] in Hk.
    destruct k as [|[|k]].
    + (* index 0: the dot *)
      destruct Hs as [[_ ->] | [[H _] | [H _]]]; try lia.
      cbn. split; [lia|]. right; left. split; reflexivity.
    + (* index 1: the slash *)
      destruct Hs as [[_ ->] | [[H _] | [_ [Hm Hg]]]]; try lia.
      * cbn. split; [lia|]. left. split; [lia|reflexivity].
      * unfold Path.extname_body.
        set (p := Path.CHAR_DOT :: Path.CHAR_FORWARD_SLASH :: r) in *.
        replace (JS.charCodeAt p (0 + Z.of_nat 1))
          with (Some Path.CHAR_FORWARD_SLASH) by reflexivity.
        cbn [JS.code_is]. rewrite Ascii.eqb_refl, Hm. cbn [negb snd fst].
        right. exact Hg.
    + (* indices from 2 on *)
      unfold Path.extname_body.
      destruct Hs as [[_ ->] | [[H _] | [_ [Hm Hg]]]]; try lia.
      * unfold ext_after_prefix, ext_init, JS.len in *.
        cbn [List.length] in *.
        cbn [Path.startDot Path.startPart Path.ext_end Path.ext_matchedSlash
             Path.preDotState] in *.
        repeat break_if;
          cbn [fst snd Path.startDot Path.startPart Path.ext_end
               Path.ext_matchedSlash Path.preDotState] in *;
          try discriminate;
          (split; [lia|]);
          solve [ left; split; [lia|reflexivity]
                | right; right; split; [lia|]; split; [reflexivity|]; lia ].
      * destruct st as [sd sp e m pd].
        unfold ext_after_prefix, JS.len in *.
        cbn [List.length] in *.
        cbn [Path.startDot Path.startPart Path.ext_end Path.ext_matchedSlash
             Path.preDotState] in *.
        subst m.
        repeat break_if;
          cbn [fst snd Path.startDot Path.startPart Path.ext_end
               Path.ext_matchedSlash Path.preDotState] in *;
          try discriminate;
          solve [ right; lia
                | split; [lia|]; right; right; split; [lia|];
                  split; [reflexivity|]; lia ].
  - intros st [_ [[H _] | [[_ H] | [H _]]]]; try lia. left; exact H.
  - split; [lia|]. left. subst p. split; [cbn [List.length]; lia | reflexivity].
Qed.

(** The extension of a path that starts with [./] lies after the [./]. *)
Lemma extname_dot_slash (r : str) :
  (List.length (Path.extname (Path.CHAR_DOT :: Path.CHAR_FORWARD_SLASH :: r))
   <= List.length r)%nat.
Proof.
  pose proof (extname_scan_dot_slash r) as H. cbv zeta in H.
  unfold Path.extname.
  destruct H as [-> | [Hsd He]]; [cbn; lia|].
  destruct (_ || _) eqn:Hc; [cbn; lia|].
  etransitivity; [apply slice_length_bound|]; unfold JS.len in *;
    cbn [List.length] in *; lia.
Qed.

Lemma getFilePathWithoutExt_dot_slash (r : str) :
  exists rest,
    getFilePathWithoutExt (js "./" ++ r)
    = Path.CHAR_DOT :: Path.CHAR_FORWARD_SLASH :: rest.
Proof.
  change (js "./" ++ r) with (Path.CHAR_DOT :: Path.CHAR_FORWARD_SLASH :: r).
  rewrite getFilePathWithoutExt_firstn.
  pose proof (extname_dot_slash r) as H.
  cbn [List.length] in *.
  destruct (S (S (List.length r))
            - List.length
                (Path.extname (Path.CHAR_DOT :: Path.CHAR_FORWARD_SLASH :: r)))%nat
    as [|[|m]] eqn:Hm; try lia.
  cbn [firstn]. eexists; reflexivity.
Qed.

(** ** Characters of [resolve] and [relative] *)

Section PathChars.

Variable P : ascii -> Prop.
Hypothesis P_slash : P Path.CHAR_FORWARD_SLASH.
Hypothesis P_dot : P Path.CHAR_DOT.

Lemma P_dots : Forall P (js "..") /\ Forall P (js "/..") /\ Forall P (js ".").
Proof. repeat split; repeat constructor; assumption. Qed.

Lemma normalize_body_chars (path : str) (b : bool) (i : Z)
      (st : Path.NormState) :
  Forall P path ->
  Forall P (Path.res st) ->
  Forall P (Path.res (fst (Path.normalize_body path b i st))).
Proof.
  intros Hp Hr. destruct P_dots as (H2 & H3 & _).
  unfold Path.normalize_body.
  repeat break_if; cbn [fst Path.res];
    repeat first [ assumption
                 | apply Forall_nil
                 | apply Forall_app; split
                 | apply Forall_cons
                 | apply slice_Forall ].
Qed.

Lemma normalizeString_chars (path : str) (b : bool) :
  Forall P path -> Forall P (Path.normalizeString path b).
Proof.
  intros Hp. unfold Path.normalizeString.
  apply (for_up_invariant (Path.normalize_body path b)
                          (fun st => Forall P (Path.res st))).
  - intros i st. apply normalize_body_chars, Hp.
  - constructor.
Qed.

Lemma resolve_loop_chars (cwd : str) (args : list str) (acc : str) :
  Forall P cwd -> Forall (Forall P) args -> Forall P acc ->
  Forall P (fst (Path.resolve_loop cwd args acc)).
Proof.
  intros Hc Ha. revert acc.
  induction Ha as [|p rest Hp Hrest IH]; intros acc Hacc;
    cbn [Path.resolve_loop].
  - destruct cwd; cbn [fst]; [assumption|].
    apply Forall_app; split; [assumption|]. constructor; assumption.
  - destruct p as [|c p]; [apply IH, Hacc|].
    assert (Hrp : Forall P ((c :: p) ++ Path.CHAR_FORWARD_SLASH :: acc)).
    { apply Forall_app; split; [assumption|]. constructor; assumption. }
    destruct (Path.isAbsoluteStart (c :: p)); cbn [fst];
      [exact Hrp | apply IH, Hrp].
Qed.

Lemma resolve_chars (cwd : str) (args : list str) :
  Forall P cwd -> Forall (Forall P) args -> Forall P (Path.resolve cwd args).
Proof.
  intros Hc Ha. unfold Path.resolve.
  assert (Hrev : Forall (Forall P) (rev args)).
  { apply Forall_forall. intros x Hx. apply in_rev in Hx.
    revert x Hx. apply Forall_forall, Ha. }
  pose proof (resolve_loop_chars cwd (rev args) [] Hc Hrev (Forall_nil P))
    as Hl.
  destruct (Path.resolve_loop cwd (rev args) []) as [rp abs].
  cbn [fst] in Hl.
  pose proof (normalizeString_chars rp (negb abs) Hl) as Hn.
  destruct abs.
  - constructor; assumption.
  - destruct (Path.normalizeString rp (negb false));
      [apply P_dots | assumption].
Qed.

(** The result of [relative] is made of dots, slashes and characters of
    the resolved target; the characters of [from] do not matter. *)
Lemma relative_chars (cwd from to : str) :
  Forall P cwd -> Forall P to -> Forall P (Path.relative cwd from to).
Proof.
  intros Hc Ht. unfold Path.relative.
  destruct (str_eqb from to); [constructor|].
  assert (Hto : Forall P (Path.resolve cwd [to])).
  { apply resolve_chars; [assumption|]. repeat constructor; assumption. }
  destruct (str_eqb _ _); [constructor|].
  assert (Htail : forall a n,
             Forall P (JS.for_up a n
                                 (Path.ups_body (Path.resolve cwd [from])
                                                (JS.len (Path.resolve cwd [from])))
                                 [])).
  { intros a n.
    apply (for_up_invariant _ (Forall P)); [|constructor].
    intros i out Hout. unfold Path.ups_body.
    destruct P_dots as (H2 & H3 & _).
    destruct (_ || _); cbn [fst]; [|assumption].
    apply Forall_app; split; [assumption|]. destruct out; assumption. }
  destruct (JS.for_up 0 _ _ _) as [i lastCommonSep].
  repeat break_if;
    repeat first [ apply sliceFrom_Forall; assumption
                 | apply Forall_app; split
                 | apply Htail ].
Qed.

End PathChars.

(** ** C3 and C4: the shape of the fallback specifier *)

Lemma fallback_with_baseUrl :
  forall cwd selfPath modulePath co base,
    baseUrl co = Some base -> base <> [] ->
    fallbackSpecifier cwd selfPath modulePath co
    = getFilePathWithoutExt (Path.relative cwd base modulePath)
        ++ appendedExtension co modulePath.
Proof.
  intros cwd selfPath modulePath co base Hb Hne.
  unfold fallbackSpecifier, appendedExtension. rewrite Hb.
  destruct base as [|c base]; [congruence|].
  repeat break_if; rewrite ?app_nil_r; reflexivity.
Qed.

Lemma fallback_without_baseUrl :
  forall cwd selfPath modulePath co,
    JS.truthy (baseUrl co) = false ->
    fallbackSpecifier cwd selfPath modulePath co
    = getFilePathWithoutExt
        (replaceBackslashes
           (let rel := Path.relative cwd (Path.dirname selfPath) modulePath in
            if JS.startsWith rel (js ".") then rel else js "./" ++ rel))
        ++ appendedExtension co modulePath.
Proof.
  intros cwd selfPath modulePath co Hb.
  unfold fallbackSpecifier, appendedExtension.
  destruct (baseUrl co) as [[|c base]|]; try discriminate;
    cbv zeta; repeat break_if; rewrite ?app_nil_r; reflexivity.
Qed.

Lemma startsWith_dot (s : str) :
  JS.startsWith s (js ".") = true -> exists r, s = Path.CHAR_DOT :: r.
Proof.
  destruct s as [|c r]; unfold js; cbn [list_ascii_of_string JS.startsWith];
    [discriminate|].
  rewrite andb_true_iff. intros [H _]. apply Ascii.eqb_eq in H. subst c.
  exists r. reflexivity.
Qed.

(** C3.  With a [baseUrl] the specifier is the relative path from it, cut
    and extended, and starts with the character that path starts with; with
    none, a relative path that starts with a dot is used as it is (the
    specifier starts with that dot), and any other one gets [./] in front,
    which the specifier keeps. *)
Theorem fallback_dot_prefix :
  forall cwd selfPath modulePath co,
    (forall base,
        baseUrl co = Some base -> base <> [] ->
        fallbackSpecifier cwd selfPath modulePath co
        = getFilePathWithoutExt (Path.relative cwd base modulePath)
            ++ appendedExtension co modulePath /\
        forall c rest,
          Path.relative cwd base modulePath = c :: rest ->
          exists rest', fallbackSpecifier cwd selfPath modulePath co = c :: rest')
    /\
    (JS.truthy (baseUrl co) = false ->
     JS.startsWith (Path.relative cwd (Path.dirname selfPath) modulePath)
                   (js ".") = true ->
     fallbackSpecifier cwd selfPath modulePath co
     = getFilePathWithoutExt
         (replaceBackslashes
            (Path.relative cwd (Path.dirname selfPath) modulePath))
         ++ appendedExtension co modulePath /\
     exists rest',
       fallbackSpecifier cwd selfPath modulePath co = Path.CHAR_DOT :: rest')
    /\
    (JS.truthy (baseUrl co) = false ->
     JS.startsWith (Path.relative cwd (Path.dirname selfPath) modulePath)
                   (js ".") = false ->
     fallbackSpecifier cwd selfPath modulePath co
     = getFilePathWithoutExt
         (js "./"
             ++ replaceBackslashes
                  (Path.relative cwd (Path.dirname selfPath) modulePath))
         ++ appendedExtension co modulePath /\
     JS.startsWith (fallbackSpecifier cwd selfPath modulePath co) (js "./")
     = true).
Proof.
  intros cwd selfPath modulePath co. split; [|split].
  - intros base Hb Hne.
    rewrite (fallback_with_baseUrl _ _ _ _ _ Hb Hne).
    split; [reflexivity|]. intros c rest ->.
    destruct (getFilePathWithoutExt_head c rest) as [r ->].
    eexists; reflexivity.
  - intros Hb Hdot. rewrite (fallback_without_baseUrl _ _ _ _ Hb).
    cbv zeta. rewrite Hdot. split; [reflexivity|].
    destruct (startsWith_dot _ Hdot) as [r ->].
    assert (Hrep : forall s, replaceBackslashes (Path.CHAR_DOT :: s)
                             = Path.CHAR_DOT :: replaceBackslashes s)
      by reflexivity.
    rewrite Hrep.
    destruct (getFilePathWithoutExt_head Path.CHAR_DOT
                                         (replaceBackslashes r)) as [r' ->].
    eexists; reflexivity.
  - intros Hb Hdot. rewrite (fallback_without_baseUrl _ _ _ _ Hb).
    cbv zeta. rewrite Hdot.
    assert (Hrep : forall r, replaceBackslashes (js "./" ++ r)
                             = js "./" ++ replaceBackslashes r)
      by reflexivity.
    rewrite Hrep. split; [reflexivity|].
    destruct (getFilePathWithoutExt_dot_slash
                (replaceBackslashes
                   (Path.relative cwd (Path.dirname selfPath) modulePath)))
      as [r ->].
    reflexivity.
Qed.

Lemma fallback_dot_prefix_witness :
  fallbackSpecifier (js "/home/u") (js "/proj/src/a/Foo.ts")
                    (js "/proj/src/b/Bar.ts")
                    (mkCompilerOptions (Some (js "/proj/src")) None)
  = js "b/Bar.ts" /\
  (exists rest,
      fallbackSpecifier (js "/home/u") (js "/proj/src/a/Foo.ts")
                        (js "/proj/src/b/Bar.ts") (mkCompilerOptions None None)
      = Path.CHAR_DOT :: rest) /\
  JS.startsWith
    (fallbackSpecifier (js "/home/u") (js "/proj/src/a/Foo.ts")
                       (js "/proj/src/a/Bar.ts") (mkCompilerOptions None None))
    (js "./") = true.
Proof.
  split; [|split].
  - refine (eq_trans
              (proj1 (proj1 (fallback_dot_prefix
                               (js "/home/u") (js "/proj/src/a/Foo.ts")
                               (js "/proj/src/b/Bar.ts")
                               (mkCompilerOptions (Some (js "/proj/src")) None))
                            (js "/proj/src") eq_refl _)) _).
    + discriminate.
    + vm_compute; reflexivity.
  - refine (proj2 (proj1 (proj2 (fallback_dot_prefix
                                   (js "/home/u") (js "/proj/src/a/Foo.ts")
                                   (js "/proj/src/b/Bar.ts")
                                   (mkCompilerOptions None None)))
                         eq_refl _)).
    vm_compute; reflexivity.
  - refine (proj2 (proj2 (proj2 (fallback_dot_prefix
                                   (js "/home/u") (js "/proj/src/a/Foo.ts")
                                   (js "/proj/src/a/Bar.ts")
                                   (mkCompilerOptions None None)))
                         eq_refl _)).
    vm_compute; reflexivity.
Defined.

Example fallback_prefix_examples :
  forall cwd,
    (* sibling file *)
    fallbackSpecifier cwd (js "/proj/src/a/Foo.ts") (js "/proj/src/a/Bar.ts")
                      (mkCompilerOptions None (Some (js "minimal")))
    = js "./Bar" /\
    (* file in a directory below *)
    fallbackSpecifier cwd (js "/proj/src/a/Foo.ts") (js "/proj/src/a/x/Bar.ts")
                      (mkCompilerOptions None (Some (js "minimal")))
    = js "./x/Bar" /\
    (* baseUrl *)
    fallbackSpecifier cwd (js "/proj/src/a/Foo.ts") (js "/proj/src/b/Bar.ts")
                      (mkCompilerOptions (Some (js "/proj/src"))
                                         (Some (js "minimal")))
    = js "b/Bar" /\
    (* a dot file beside the importing file gets no prefix *)
    fallbackSpecifier cwd (js "/proj/src/a/Foo.ts") (js "/proj/src/a/.hid.ts")
                      (mkCompilerOptions None (Some (js "minimal")))
    = js ".hid".
Proof. intros; repeat split; vm_compute; reflexivity. Qed.

(** Not every fallback specifier is free of backslashes. *)
Lemma fallback_backslash_counterexample :
  ~ (forall cwd selfPath modulePath co,
        noBackslash (fallbackSpecifier cwd selfPath modulePath co)).
Proof.
  intros H.
  specialize (H (js "/home/u") (js "C:\proj\src\a\Foo.ts")
                (js "C:\proj\src\b\Bar.ts")
                (mkCompilerOptions (Some (js "C:\proj\src")) None)).
  unfold noBackslash in H. rewrite Forall_forall in H.
  apply (H CHAR_BACKWARD_SLASH); [|reflexivity].
  vm_compute. do 5 right. left. reflexivity.
Qed.

Example fallback_backslash_values :
  fallbackSpecifier (js "/home/u") (js "C:\proj\src\a\Foo.ts")
                    (js "C:\proj\src\b\Bar.ts")
                    (mkCompilerOptions (Some (js "C:\proj\src")) None)
  = js "../C:\proj\src\b\Bar.ts" /\
  fallbackSpecifier (js "/home/u") (js "/proj/src/a/Foo.ts")
                    (js "/proj/src/b\Bar.ts")
                    (mkCompilerOptions (Some (js "/proj/src")) None)
  = js "b\Bar.ts" /\
  fallbackSpecifier (js "/home/u") (js "/proj/src/a/Foo.ts")
                    (js "/proj/src/a/b\Bar.ts")
                    (mkCompilerOptions None None)
  = js "./b/Bar.ts".
Proof. repeat split; vm_compute; reflexivity. Qed.

(** C4.  With [baseUrl] set to [C:\proj\src], the fallback for the module
    [C:\proj\src\b\Bar.ts] keeps every backslash of the path: the branch
    with a [baseUrl] returns the relative path as [path.posix.relative]
    gives it.  On the same two paths the branch without a [baseUrl] returns
    a specifier with forward slashes only, as the claim asks of both. *)
Theorem fallback_baseUrl_keeps_backslashes :
  fallbackSpecifier (js "/home/u") (js "C:\proj\src\a\Foo.ts")
                    (js "C:\proj\src\b\Bar.ts")
                    (mkCompilerOptions (Some (js "C:\proj\src")) None)
  = js "../C:\proj\src\b\Bar.ts" /\
  In CHAR_BACKWARD_SLASH
     (fallbackSpecifier (js "/home/u") (js "C:\proj\src\a\Foo.ts")
                        (js "C:\proj\src\b\Bar.ts")
                        (mkCompilerOptions (Some (js "C:\proj\src")) None)) /\
  fallbackSpecifier (js "/home/u") (js "C:\proj\src\a\Foo.ts")
                    (js "C:\proj\src\b\Bar.ts")
                    (mkCompilerOptions None None)
  = js "./C:/proj/src/b/Bar.ts" /\
  ~ In CHAR_BACKWARD_SLASH
      (fallbackSpecifier (js "/home/u") (js "C:\proj\src\a\Foo.ts")
                         (js "C:\proj\src\b\Bar.ts")
                         (mkCompilerOptions None None)).
Proof.
  split; [vm_compute; reflexivity|]. split.
  - vm_compute. do 5 right. left. reflexivity.
  - split; [vm_compute; reflexivity|].
    vm_compute. intuition discriminate.
Qed.

Lemma replaceBackslashes_noBackslash (s : str) :
  noBackslash (replaceBackslashes s).
Proof.
  unfold noBackslash, replaceBackslashes. apply Forall_map, Forall_forall.
  intros c _. destruct (Ascii.eqb c CHAR_BACKWARD_SLASH) eqn:E.
  - discriminate.
  - apply Ascii.eqb_neq, E.
Qed.

Lemma appendedExtension_noBackslash (co : CompilerOptions) (modulePath : str) :
  noBackslash modulePath -> noBackslash (appendedExtension co modulePath).
Proof.
  intros H. unfold appendedExtension.
  repeat break_if; try apply Forall_nil; apply extname_Forall, H.
Qed.

(** Where the fallback is free of backslashes.  Without a [baseUrl] the
    backslashes of the relative path are replaced before the extension is
    cut, so the specifier has a backslash only if the appended extension
    has one, and none under ["minimal"].  In either branch the specifier
    has no backslash when the working directory and the module path have
    none. *)
Theorem fallback_backslash_free :
  forall cwd selfPath modulePath co,
    (JS.truthy (baseUrl co) = false ->
     noBackslash (appendedExtension co modulePath) ->
     noBackslash (fallbackSpecifier cwd selfPath modulePath co)) /\
    (JS.truthy (baseUrl co) = false ->
     importModuleSpecifierEnding co = Some (js "minimal") ->
     noBackslash (fallbackSpecifier cwd selfPath modulePath co)) /\
    (noBackslash cwd -> noBackslash modulePath ->
     noBackslash (fallbackSpecifier cwd selfPath modulePath co)).
Proof.
  intros cwd selfPath modulePath co.
  assert (H1 : JS.truthy (baseUrl co) = false ->
               noBackslash (appendedExtension co modulePath) ->
               noBackslash (fallbackSpecifier cwd selfPath modulePath co)).
  { intros Hb He. rewrite (fallback_without_baseUrl _ _ _ _ Hb).
    apply Forall_app; split; [|exact He].
    apply getFilePathWithoutExt_Forall, replaceBackslashes_noBackslash. }
  split; [exact H1|]. split.
  - intros Hb Hmin. apply H1; [exact Hb|].
    unfold appendedExtension. rewrite Hmin. apply Forall_nil.
  - intros Hc Hm.
    destruct (JS.truthy (baseUrl co)) eqn:Hb.
    + destruct (baseUrl co) as [[|c base]|] eqn:Hbase; try discriminate.
      rewrite (fallback_with_baseUrl _ _ _ _ _ Hbase) by discriminate.
      apply Forall_app; split;
        [|apply appendedExtension_noBackslash, Hm].
      apply getFilePathWithoutExt_Forall.
      apply relative_chars; try assumption; discriminate.
    + apply H1; [reflexivity|]. apply appendedExtension_noBackslash, Hm.
Qed.

Lemma fallback_backslash_free_witness :
  noBackslash
    (fallbackSpecifier (js "/home/u") (js "C:\proj\src\a\Foo.ts")
                       (js "C:\proj\src\b\Bar.ts")
                       (mkCompilerOptions None None)) /\
  noBackslash
    (fallbackSpecifier (js "/home/u") (js "/proj/src/a/Foo.ts")
                       (js "/proj/src/a/b\Bar.t\s")
                       (mkCompilerOptions None (Some (js "minimal")))) /\
  noBackslash
    (fallbackSpecifier (js "/home/u") (js "/proj/src/a/Foo.ts")
                       (js "/proj/src/b/Bar.ts")
                       (mkCompilerOptions (Some (js "/proj/src")) None)).
Proof.
  split; [|split].
  - apply (proj1 (fallback_backslash_free
                    (js "/home/u") (js "C:\proj\src\a\Foo.ts")
                    (js "C:\proj\src\b\Bar.ts") (mkCompilerOptions None None)));
      [reflexivity|].
    vm_compute. repeat constructor; discriminate.
  - apply (proj1 (proj2 (fallback_backslash_free
                           (js "/home/u") (js "/proj/src/a/Foo.ts")
                           (js "/proj/src/a/b\Bar.t\s")
                           (mkCompilerOptions None (Some (js "minimal"))))));
      reflexivity.
  - apply (proj2 (proj2 (fallback_backslash_free
                           (js "/home/u") (js "/proj/src/a/Foo.ts")
                           (js "/proj/src/b/Bar.ts")
                           (mkCompilerOptions (Some (js "/proj/src")) None))));
      vm_compute; repeat constructor; discriminate.
Defined.

(** * Further properties of the plugin *)

(** ** [stringCase] and [transformImportName] *)

Lemma toLower_toLower (c : ascii) : toLowerChar (toLowerChar c) = toLowerChar c.
Proof. each_ascii c. Qed.

Lemma toLower_toUpper (c : ascii) : toLowerChar (toUpperChar c) = toLowerChar c.
Proof. each_ascii c. Qed.

Lemma isAlnum_toLower (c : ascii) : isAlnum (toLowerChar c) = isAlnum c.
Proof. each_ascii c. Qed.

Lemma isLower_toUpper (c : ascii) : isLower (toUpperChar c) = false.
Proof. each_ascii c. Qed.

Lemma isUpper_toLower (c : ascii) : isUpper (toLowerChar c) = false.
Proof. each_ascii c. Qed.

Lemma alnum_not_space (c : ascii) : isAlnum c && isSpace c = false.
Proof. each_ascii c. Qed.

Lemma space_is_space : isSpace CHAR_SPACE = true.
Proof. reflexivity. Qed.

Lemma split_ws_concat (s cur : str) (inSep : bool) :
  List.concat (split_ws s cur inSep)
  = rev cur ++ filter (fun c => negb (isSpace c)) s.
Proof.
  revert cur inSep. induction s as [|c s IH]; intros cur inSep;
    cbn [split_ws filter List.concat].
  - rewrite !app_nil_r. reflexivity.
  - destruct (isSpace c); cbn [negb].
    + destruct inSep; [apply IH|].
      cbn [List.concat]. rewrite IH. reflexivity.
    + rewrite IH. cbn [rev]. rewrite <- app_assoc. reflexivity.
Qed.

Lemma concat_truthy_words (ws : list str) :
  List.concat (filter (fun w => JS.truthy (Some w)) ws) = List.concat ws.
Proof.
  induction ws as [|w ws IH]; [reflexivity|].
  destruct w as [|c w]; simpl.
  - exact IH.
  - f_equal. f_equal. exact IH.
Qed.

Lemma filter_replaceNonAlnum (s : str) :
  filter (fun c => negb (isSpace c)) (replaceNonAlnum s) = filter isAlnum s.
Proof.
  induction s as [|c s IH]; [reflexivity|].
  cbn [replaceNonAlnum map filter]. fold (replaceNonAlnum s).
  fold (isAlnum c). destruct (isAlnum c) eqn:Hc.
  - pose proof (alnum_not_space c) as H. rewrite Hc in H. cbn [andb] in H.
    rewrite H. cbn [negb]. rewrite IH. reflexivity.
  - rewrite space_is_space. cbn [negb]. exact IH.
Qed.

Lemma sliceFrom_cons_1 (c : ascii) (w : str) : JS.sliceFrom (c :: w) 1 = w.
Proof.
  unfold JS.sliceFrom, JS.clamp, JS.len. cbn [List.length Z.ltb Z.compare].
  replace (Z.to_nat (Z.min 1 (Z.of_nat (S (List.length w))))) with 1%nat by lia.
  reflexivity.
Qed.

Lemma stringCase_word_lower (w : str) :
  toLowerCase (toUpperCase (JS.charAt w 0) ++ toLowerCase (JS.sliceFrom w 1))
  = toLowerCase w.
Proof.
  destruct w as [|c w]; [reflexivity|].
  rewrite sliceFrom_cons_1.
  change (JS.charAt (c :: w) 0) with [c].
  unfold toLowerCase, toUpperCase. cbn [map app].
  rewrite toLower_toUpper, map_map. f_equal.
  apply map_ext. intros a. apply toLower_toLower.
Qed.

Lemma stringCase_map_lower (ws : list str) (index : nat) (pascalCase : bool) :
  toLowerCase (List.concat (stringCase_map ws index pascalCase))
  = toLowerCase (List.concat ws).
Proof.
  revert index. induction ws as [|w ws IH]; intros index; [reflexivity|].
  cbn [stringCase_map List.concat]. unfold toLowerCase in *.
  rewrite !map_app, IH. f_equal.
  destruct (Nat.eqb index 0 && negb pascalCase).
  - rewrite map_map. apply map_ext. intros a. apply toLower_toLower.
  - apply stringCase_word_lower.
Qed.

Lemma stringCase_lower (s : str) (pascalCase : bool) :
  toLowerCase (stringCase s pascalCase) = toLowerCase (filter isAlnum s).
Proof.
  unfold stringCase.
  rewrite stringCase_map_lower, concat_truthy_words.
  unfold splitWhitespace. rewrite split_ws_concat. cbn [rev app].
  rewrite filter_replaceNonAlnum. reflexivity.
Qed.

(** X1.  Up to letter case, [stringCase] returns the letters and digits of
    its argument, in their order: it only drops the other characters and
    changes case. *)
Theorem stringCase_keeps_letters_and_digits :
  forall (s : str) (pascalCase : bool),
    toLowerCase (stringCase s pascalCase) = toLowerCase (filter isAlnum s).
Proof.
  intros s pascalCase. unfold stringCase.
  rewrite stringCase_map_lower, concat_truthy_words.
  unfold splitWhitespace. rewrite split_ws_concat. cbn [rev app].
  apply f_equal, filter_replaceNonAlnum.
Qed.

Lemma toLowerCase_alnum (s : str) :
  Forall (fun c => isAlnum c = true) (toLowerCase s) <->
  Forall (fun c => isAlnum c = true) s.
Proof.
  unfold toLowerCase. rewrite Forall_map.
  split; apply Forall_impl; intros c; rewrite isAlnum_toLower; trivial.
Qed.

Lemma filter_nil_iff {A : Type} (f : A -> bool) (l : list A) :
  filter f l = [] <-> Forall (fun x => f x = false) l.
Proof.
  induction l as [|x l IH]; cbn [filter].
  - split; [constructor|reflexivity].
  - destruct (f x) eqn:Hx.
    + split; [discriminate|]. intros H. inversion H; congruence.
    + rewrite IH. split; [constructor; assumption|].
      intros H. inversion H; assumption.
Qed.

(** X2.  The result of [stringCase] is made of letters and digits only, has
    as many characters as the argument has letters and digits, and is empty
    exactly when the argument has none. *)
Theorem stringCase_alphanumeric :
  forall (s : str) (pascalCase : bool),
    Forall (fun c => isAlnum c = true) (stringCase s pascalCase) /\
    List.length (stringCase s pascalCase) = List.length (filter isAlnum s) /\
    (stringCase s pascalCase = [] <->
     Forall (fun c => isAlnum c = false) s).
Proof.
  intros s pascalCase.
  pose proof (stringCase_lower s pascalCase) as H.
  assert (Hlen : List.length (stringCase s pascalCase)
                 = List.length (filter isAlnum s)).
  { apply (f_equal (@List.length ascii)) in H.
    unfold toLowerCase in H. rewrite !length_map in H. exact H. }
  split; [|split].
  - apply toLowerCase_alnum. rewrite H. apply toLowerCase_alnum.
    apply Forall_forall. intros c Hc. apply filter_In in Hc. apply Hc.
  - exact Hlen.
  - rewrite <- filter_nil_iff. split; intros E.
    + rewrite E in Hlen. destruct (filter isAlnum s); [reflexivity|discriminate].
    + rewrite E in Hlen. destruct (stringCase s pascalCase);
        [reflexivity|discriminate].
Qed.

Lemma stringCase_head (s : str) (pascalCase : bool) :
  match stringCase s pascalCase with
  | [] => True
  | ch :: _ => if pascalCase then isLower ch = false else isUpper ch = false
  end.
Proof.
  unfold stringCase.
  set (ws := filter (fun w => JS.truthy (Some w))
                    (splitWhitespace (replaceNonAlnum s))).
  assert (Hws : Forall (fun w => JS.truthy (Some w) = true) ws).
  { apply Forall_forall. intros w Hw. apply filter_In in Hw. apply Hw. }
  destruct ws as [|w ws]; [exact I|].
  inversion Hws as [|w' ws' Hw _]; subst.
  destruct w as [|c w]; [discriminate|].
  cbn [stringCase_map List.concat Nat.eqb andb].
  destruct pascalCase; cbn [negb].
  - change (JS.charAt (c :: w) 0) with [c]. cbn. apply isLower_toUpper.
  - cbn. apply isUpper_toLower.
Qed.

(** X3.  Under ["PascalCase"] the transformed name never starts with a
    lower-case letter; under every other non-empty [nameTransform] it never
    starts with an upper-case letter. *)
Theorem transformImportName_first_letter :
  forall (name : str) p i (a : ascii) (t : str) c,
    match transformImportName name (mkOptions p i (Some (a :: t)) c) with
    | [] => True
    | ch :: _ =>
        if str_eqb (a :: t) (js "PascalCase")
        then isLower ch = false
        else isUpper ch = false
    end.
Proof.
  intros name p i a t c. unfold transformImportName.
  cbn [nameTransform JS.truthy opt_is].
  pose proof (stringCase_head name (str_eqb (a :: t) (js "PascalCase"))) as H.
  destruct (stringCase name (str_eqb (a :: t) (js "PascalCase")));
    [exact I|].
  exact H.
Qed.

Lemma replaceNonAlnum_alnum (s : str) :
  Forall (fun c => isAlnum c = true) s -> replaceNonAlnum s = s.
Proof.
  induction 1 as [|c s Hc _ IH]; [reflexivity|].
  cbn [replaceNonAlnum map]. fold (replaceNonAlnum s). fold (isAlnum c).
  rewrite Hc, IH. reflexivity.
Qed.

Lemma split_ws_one_word (s cur : str) :
  Forall (fun c => isAlnum c = true) s ->
  split_ws s cur false = [rev cur ++ s].
Proof.
  intros H. revert cur. induction H as [|c s Hc _ IH]; intros cur;
    cbn [split_ws].
  - rewrite app_nil_r. reflexivity.
  - pose proof (alnum_not_space c) as Hs. rewrite Hc in Hs. cbn [andb] in Hs.
    rewrite Hs, IH. cbn [rev]. rewrite <- app_assoc. reflexivity.
Qed.

(** X4.  A name made of letters and digits only is one word for
    [stringCase]: the PascalCase form is its first character in upper case
    followed by the rest in lower case, the camelCase form is the name in
    lower case; capitals inside the name are lost. *)
Theorem stringCase_single_word :
  forall (c : ascii) (w : str) (pascalCase : bool),
    Forall (fun x => isAlnum x = true) (c :: w) ->
    stringCase (c :: w) pascalCase
    = if pascalCase then toUpperChar c :: toLowerCase w
      else toLowerCase (c :: w).
Proof.
  intros c w pascalCase H. unfold stringCase, splitWhitespace.
  rewrite (replaceNonAlnum_alnum _ H), (split_ws_one_word _ [] H).
  cbn [rev app filter JS.truthy stringCase_map List.concat Nat.eqb andb].
  rewrite app_nil_r.
  destruct pascalCase; cbn [negb]; [|reflexivity].
  rewrite sliceFrom_cons_1. reflexivity.
Qed.

Lemma stringCase_single_word_witness :
  stringCase (js "StateMachine") true = js "Statemachine".
Proof.
  refine (eq_trans
            (stringCase_single_word "S"%char (js "tateMachine") true _) _).
  - repeat constructor.
  - reflexivity.
Defined.

(** ** [getCompletionEntries] *)

Lemma NoDup_map_Some {A : Type} (l : list A) :
  NoDup l -> NoDup (map (@Some A) l).
Proof.
  induction 1 as [|x l Hx _ IH]; cbn [map]; constructor; [|exact IH].
  intros Hin. apply in_map_iff in Hin. destruct Hin as [y [Hy Hin]].
  injection Hy as ->. exact (Hx Hin).
Qed.

Lemma getCompletionEntries_sources :
  forall cwd ServerHost (info : PluginCreateInfo ServerHost),
    map source (getCompletionEntries cwd info)
    = map Some (getModulePathsToImport cwd (config_options info)
                                       (project info)).
Proof.
  intros. unfold getCompletionEntries. rewrite map_map.
  apply map_ext. reflexivity.
Qed.

(** X5.  [getCompletionEntries] gives one entry per discovered module, in
    the order of discovery, so no two entries have the same source; each
    entry is named after its module's transformed basename, sorts under
    ["16"] followed by that name, and carries the name and the module path
    in its payload, with no [fileName]. *)
Theorem getCompletionEntries_one_per_module :
  forall cwd ServerHost (info : PluginCreateInfo ServerHost),
    let discovered :=
      getModulePathsToImport cwd (config_options info) (project info) in
    let es := getCompletionEntries cwd info in
    map source es = map Some discovered /\
    NoDup (map source es) /\
    Forall (fun e =>
              exists mp,
                In mp discovered /\
                entry_name e
                = transformImportName (getFileNameWithoutExt mp)
                                      (config_options info) /\
                sortText e = js "16" ++ entry_name e /\
                source e = Some mp /\
                data e = Some (mkData (Some (entry_name e)) None (Some mp)))
           es.
Proof.
  intros cwd SH info discovered es. subst es discovered.
  split; [apply getCompletionEntries_sources|]. split.
  - rewrite getCompletionEntries_sources. apply NoDup_map_Some.
    apply StrSet_of_list_NoDup.
  - apply Forall_forall. intros e He. unfold getCompletionEntries in He.
    apply in_map_iff in He.
    destruct He as [mp [<- Hmp]]. exists mp.
    split; [exact Hmp|]. cbn. repeat split.
Qed.

(** ** [filterNamedImportEntries] *)

Lemma suppressedBy_existsb (cwd currentDir : str) (ps : list str)
      (e : CompletionEntry) :
  existsb
    (fun dirPath =>
       match data e with
       | Some d =>
           JS.truthy (exportName d) &&
           match fileName d with
           | Some f => JS.startsWith f dirPath
           | None => false
           end
       | None => false
       end)
    (map (fun dirPath => Path.resolve cwd [currentDir; dirPath]) ps) = true
  <-> suppressedBy cwd currentDir ps e.
Proof.
  rewrite existsb_exists. unfold suppressedBy. split.
  - intros [dirPath [Hdir H]]. apply in_map_iff in Hdir.
    destruct Hdir as [root [<- Hroot]].
    destruct (data e) as [d|]; [|discriminate].
    apply andb_true_iff in H. destruct H as [Hx H].
    destruct (fileName d) as [f|] eqn:Hf; [|discriminate].
    exists d, f, root. repeat split; try assumption; reflexivity.
  - intros (d & f & root & Hd & Hx & Hf & Hroot & Hstart).
    exists (Path.resolve cwd [currentDir; root]). split.
    + apply in_map_iff. exists root. split; [reflexivity|exact Hroot].
    + rewrite Hd, Hx, Hf, Hstart. reflexivity.
Qed.

(** X6.  With [ignoreNamedExport] set and [paths] given, an entry stays
    exactly when it is not suppressed: it is dropped when, and only when,
    its payload has a non-empty [exportName] and a [fileName] that starts
    with one of the roots resolved against the current directory. *)
Theorem filterNamedImportEntries_membership :
  forall cwd ServerHost entries ps n c (p : Project ServerHost) prog,
  exists out,
    filterNamedImportEntries
      cwd entries (mkInfo (mkOptions (Some ps) (Some true) n c) p prog)
    = Normal out /\
    forall e,
      In e out <->
      In e entries /\ ~ suppressedBy cwd (getCurrentDirectory p) ps e.
Proof.
  intros. eexists. split; [reflexivity|].
  intros e. rewrite filter_In, negb_true_iff.
  cbn [project config_options].
  rewrite <- suppressedBy_existsb, not_true_iff_false. reflexivity.
Qed.

Lemma startsWith_app (p s : str) : JS.startsWith (p ++ s) p = true.
Proof.
  induction p as [|c p IH]; [reflexivity|].
  cbn [app JS.startsWith]. rewrite Ascii.eqb_refl, IH. reflexivity.
Qed.

(** X7.  The root test is textual: a named entry whose [fileName] is a
    resolved root followed by any characters is dropped, also when those
    characters continue a directory name instead of starting a new path
    component. *)
Theorem filterNamedImportEntries_textual_prefix :
  forall cwd ServerHost entries ps n c (p : Project ServerHost) prog
         e d root rest,
    In root ps ->
    data e = Some d ->
    JS.truthy (exportName d) = true ->
    fileName d
    = Some (Path.resolve cwd [getCurrentDirectory p; root] ++ rest) ->
    exists out,
      filterNamedImportEntries
        cwd entries (mkInfo (mkOptions (Some ps) (Some true) n c) p prog)
      = Normal out /\ ~ In e out.
Proof.
  intros cwd SH entries ps n c p prog e d root rest Hroot Hd Hx Hf.
  eexists. split; [reflexivity|].
  rewrite filter_In, negb_true_iff. cbn [project config_options].
  intros [_ H]. apply not_true_iff_false in H. apply H.
  apply suppressedBy_existsb.
  exists d, (Path.resolve cwd [getCurrentDirectory p; root] ++ rest), root.
  repeat split; try assumption. apply startsWith_app.
Qed.

Lemma filterNamedImportEntries_textual_prefix_witness :
  exists out,
    filterNamedImportEntries
      (js "/home/u") [entry_in_sibling_directory]
      (mkInfo (mkOptions (Some [js "src/b"]) (Some true) None None)
              demo_project (Some demo_program))
    = Normal out /\ ~ In entry_in_sibling_directory out.
Proof.
  apply (filterNamedImportEntries_textual_prefix
           (js "/home/u") unit [entry_in_sibling_directory] [js "src/b"]
           None None demo_project (Some demo_program)
           entry_in_sibling_directory
           (mkData (Some (js "helper")) (Some (js "/proj/src/bar/Helper.ts"))
                   None)
           (js "src/b") (js "ar/Helper.ts")).
  - left; reflexivity.
  - reflexivity.
  - reflexivity.
  - reflexivity.
Defined.

(** ** [getModulePathsToImport]: order *)

Lemma filter_absent_add (acc : list str) (x : str) (l : list str) :
  filter (fun y => negb (StrSet.has (acc ++ [x]) y)) l
  = filter (fun y => negb (StrSet.has acc y))
           (filter (fun y => negb (str_eqb y x)) l).
Proof.
  assert (Hhas : forall y, StrSet.has (acc ++ [x]) y
                           = StrSet.has acc y || str_eqb y x).
  { intros y. induction acc as [|a acc IH]; cbn [app StrSet.has].
    - rewrite orb_false_r.
      destruct (str_eqb x y) eqn:E1, (str_eqb y x) eqn:E2; try reflexivity.
      + apply str_eqb_eq in E1. subst. rewrite str_eqb_refl in E2. discriminate.
      + apply str_eqb_eq in E2. subst. rewrite str_eqb_refl in E1. discriminate.
    - rewrite IH, orb_assoc. reflexivity. }
  induction l as [|y l IH]; [reflexivity|].
  cbn [filter]. rewrite Hhas.
  destruct (str_eqb y x); cbn [negb filter].
  - rewrite orb_true_r. cbn [negb]. exact IH.
  - rewrite orb_false_r. destruct (StrSet.has acc y); cbn [negb];
      rewrite IH; reflexivity.
Qed.

Lemma filter_absent_present (acc : list str) (x : str) (l : list str) :
  StrSet.has acc x = true ->
  filter (fun y => negb (StrSet.has acc y))
         (x :: filter (fun y => negb (str_eqb y x)) l)
  = filter (fun y => negb (StrSet.has acc y)) l.
Proof.
  intros Hx. cbn [filter]. rewrite Hx. cbn [negb].
  induction l as [|y l IH]; [reflexivity|].
  cbn [filter]. destruct (str_eqb y x) eqn:E; cbn [negb filter].
  - apply str_eqb_eq in E. subst y. rewrite Hx. cbn [negb]. exact IH.
  - rewrite IH. reflexivity.
Qed.

Lemma StrSet_fold_firstOccurrences (l acc : list str) :
  fold_left StrSet.add l acc
  = acc ++ filter (fun y => negb (StrSet.has acc y)) (firstOccurrences l).
Proof.
  revert acc. induction l as [|x l IH]; intros acc;
    cbn [fold_left firstOccurrences].
  - cbn [filter]. rewrite app_nil_r. reflexivity.
  - rewrite IH. unfold StrSet.add. destruct (StrSet.has acc x) eqn:Hx.
    + rewrite filter_absent_present by exact Hx. reflexivity.
    + cbn [filter]. rewrite Hx. cbn [negb].
      rewrite <- app_assoc. cbn [app]. rewrite filter_absent_add.
      reflexivity.
Qed.

(** X8.  Discovery keeps the order in which the host lists the paths: its
    result is the filtered listing with every later repetition of a path
    left out, and the filtered listing itself when that has no repetition. *)
Theorem discovery_keeps_first_occurrences :
  forall cwd ServerHost options (p : Project ServerHost),
    let kept := filter (keepPath options) (listedPaths cwd options p) in
    getModulePathsToImport cwd options p = firstOccurrences kept /\
    (NoDup kept -> getModulePathsToImport cwd options p = kept).
Proof.
  intros cwd SH options p kept.
  assert (H : getModulePathsToImport cwd options p = firstOccurrences kept).
  { unfold getModulePathsToImport, StrSet.spread, StrSet.of_list.
    fold kept. rewrite StrSet_fold_firstOccurrences. cbn [app StrSet.has].
    induction (firstOccurrences kept) as [|y l IH]; [reflexivity|].
    simpl. f_equal. exact IH. }
  split; [exact H|].
  intros Hnd. rewrite H. clear H.
  induction Hnd as [|x l Hx _ IH]; [reflexivity|].
  cbn [firstOccurrences]. rewrite IH. f_equal.
  clear IH. induction l as [|y l IH]; [reflexivity|].
  cbn [filter]. destruct (str_eqb y x) eqn:E.
  - apply str_eqb_eq in E. subst y. exfalso. apply Hx. left; reflexivity.
  - cbn [negb]. f_equal. apply IH. intros Hin. apply Hx. right; exact Hin.
Qed.

Lemma discovery_keeps_first_occurrences_witness :
  getModulePathsToImport
    (js "/home/u") (mkOptions (Some [js "src/b"]) None None None) demo_project
  = [js "/proj/src/b/Bar.ts"; js "/proj/src/b/util.ts"].
Proof.
  apply (proj2 (discovery_keeps_first_occurrences
                  (js "/home/u") unit
                  (mkOptions (Some [js "src/b"]) None None None) demo_project)).
  vm_compute. repeat constructor; cbn; intuition discriminate.
Defined.

(** ** [getCodeFixActionByName]: ties and empty selections *)

Lemma find_first {A : Type} (f : A -> bool) (l1 l2 : list A) (m : A) :
  (forall x, In x l1 -> f x = false) -> f m = true ->
  find f (l1 ++ m :: l2) = Some m.
Proof.
  intros H1 Hm. induction l1 as [|x l1 IH]; cbn [app find].
  - rewrite Hm. reflexivity.
  - rewrite (H1 x) by (left; reflexivity).
    apply IH. intros y Hy. apply H1. right; exact Hy.
Qed.

(** X9.  When several discovered modules have the selected text as
    basename-without-extension, the fix imports the one discovered first. *)
Theorem codefix_takes_first_match :
  forall cwd ServerHost native selfPath start stop
         (info : PluginCreateInfo ServerHost) name before m after,
    selectedText selfPath start stop info = Some name ->
    name <> [] ->
    getModulePathsToImport cwd (config_options info) (project info)
    = before ++ m :: after ->
    (forall x, In x before -> getFileNameWithoutExt x <> name) ->
    getFileNameWithoutExt m = name ->
    getCodeFixActionByName cwd native selfPath start stop info
    = Some (getCodeFixActionFromPath cwd native name selfPath m (project info)).
Proof.
  intros cwd SH native selfPath start stop info name before m after
         Hsel Hne Hdisc Hbefore Hm.
  rewrite getCodeFixActionByName_unfold, Hsel, Hdisc.
  destruct name as [|ch name]; [congruence|].
  rewrite find_first; [reflexivity| |].
  - intros x Hx. apply str_eqb_neq. apply Hbefore, Hx.
  - apply str_eqb_eq, Hm.
Qed.

Lemma codefix_takes_first_match_witness :
  getCodeFixActionByName (js "/home/u") throwing_native
                         (js "/proj/src/a/Foo.ts") 0 3 twin_info
  = Some (getCodeFixActionFromPath
            (js "/home/u") throwing_native (js "Bar")
            (js "/proj/src/a/Foo.ts") (js "/proj/src/a/Bar.tsx")
            (project twin_info)).
Proof.
  apply (codefix_takes_first_match
           (js "/home/u") unit throwing_native (js "/proj/src/a/Foo.ts") 0 3
           twin_info (js "Bar") [js "/proj/src/util.ts"]
           (js "/proj/src/a/Bar.tsx") [js "/proj/src/b/Bar.ts"]).
  - reflexivity.
  - discriminate.
  - reflexivity.
  - intros x [<- | []]. vm_compute. discriminate.
  - reflexivity.
Defined.

Lemma slice_empty (s : str) (start stop : Z) :
  0 <= stop <= start -> JS.slice s start stop = [].
Proof.
  intros H. unfold JS.slice, JS.clamp.
  destruct (start <? 0) eqn:E1; [lia|]. destruct (stop <? 0) eqn:E2; [lia|].
  replace (Z.to_nat (Z.min stop (JS.len s) - Z.min start (JS.len s)))
    with O by lia.
  reflexivity.
Qed.

(** X10.  A selection that ends at or before its start gives no fix,
    whatever the file and the discovered modules are. *)
Theorem codefix_empty_selection :
  forall cwd ServerHost native selfPath start stop
         (info : PluginCreateInfo ServerHost),
    0 <= stop <= start ->
    getCodeFixActionByName cwd native selfPath start stop info = None /\
    forall original,
      getCodeFixesAtPosition cwd native info original selfPath start stop
      = original.
Proof.
  intros cwd SH native selfPath start stop info H.
  assert (Hnone : getCodeFixActionByName cwd native selfPath start stop info
                  = None).
  { unfold getCodeFixActionByName, selectedText.
    destruct (languageService_getProgram info) as [program|]; [|reflexivity].
    destruct (getSourceFile program selfPath) as [sf|]; [|reflexivity].
    rewrite slice_empty by exact H. reflexivity. }
  split; [exact Hnone|].
  intros original. unfold getCodeFixesAtPosition. rewrite Hnone. reflexivity.
Qed.

Lemma codefix_empty_selection_witness :
  getCodeFixActionByName (js "/home/u") throwing_native
                         (js "/proj/src/a/Foo.ts") 3 0 demo_info = None.
Proof.
  apply (proj1 (codefix_empty_selection
                  (js "/home/u") unit throwing_native
                  (js "/proj/src/a/Foo.ts") 3 0 demo_info
                  ltac:(lia))).
Defined.

(** ** [getModuleSpceifier]: the native resolver and the ending policy *)

(** X11.  When the importing file is in the program, the project has a
    host and the native resolver returns, [getModuleSpceifier] returns that
    value as it is: no extension policy and no path rewriting is applied. *)
Theorem native_result_used_verbatim :
  forall cwd ServerHost native selfPath modulePath (p : Project ServerHost)
         program sourceFile host specifier,
    project_getProgram p = Some program ->
    getSourceFile program selfPath = Some sourceFile ->
    projectService_host p = Some host ->
    native (getCompilerOptions p) sourceFile selfPath modulePath host
    = Normal specifier ->
    getModuleSpceifier cwd native selfPath modulePath p = specifier /\
    forall name,
      isPrependEdit selfPath (importStatement name specifier)
                    (getCodeFixActionFromPath cwd native name selfPath
                                              modulePath p).
Proof.
  intros cwd SH native selfPath modulePath p program sourceFile host specifier
         Hprog Hsf Hhost Hnative.
  assert (H : getModuleSpceifier cwd native selfPath modulePath p = specifier).
  { unfold getModuleSpceifier. rewrite Hprog, Hsf, Hhost, Hnative.
    reflexivity. }
  split; [exact H|].
  intros name. rewrite <- H. apply getCodeFixActionFromPath_edit.
Qed.

Lemma native_result_used_verbatim_witness :
  getModuleSpceifier (js "/home/u") package_native (js "/proj/src/a/Foo.ts")
                     (js "/proj/src/b/Bar.ts") demo_project
  = js "@proj/b/Bar".
Proof.
  apply (proj1 (native_result_used_verbatim
                  (js "/home/u") unit package_native (js "/proj/src/a/Foo.ts")
                  (js "/proj/src/b/Bar.ts") demo_project demo_program
                  demo_sourceFile tt (js "@proj/b/Bar")
                  eq_refl eq_refl eq_refl eq_refl)).
Defined.

(** X12.  Without a program, without the importing file in the program, or
    without a host, the native resolver is not consulted: the result is the
    fallback, the same for every resolver. *)
Theorem native_resolver_not_consulted :
  forall cwd ServerHost selfPath modulePath (p : Project ServerHost),
    project_getProgram p = None \/
    (exists program,
        project_getProgram p = Some program /\
        getSourceFile program selfPath = None) \/
    projectService_host p = None ->
    forall native native',
      getModuleSpceifier cwd native selfPath modulePath p
      = fallbackSpecifier cwd selfPath modulePath (getCompilerOptions p) /\
      getModuleSpceifier cwd native selfPath modulePath p
      = getModuleSpceifier cwd native' selfPath modulePath p.
Proof.
  intros cwd SH selfPath modulePath p H native native'.
  assert (H' : match project_getProgram p with
               | Some program => getSourceFile program selfPath
               | None => None
               end = None \/ projectService_host p = None).
  { destruct H as [H | [[program [Hp Hs]] | H]].
    - left. rewrite H. reflexivity.
    - left. rewrite Hp. exact Hs.
    - right. exact H. }
  rewrite !(getModuleSpceifier_no_native cwd SH _ selfPath modulePath p H').
  split; reflexivity.
Qed.

Lemma native_resolver_not_consulted_witness :
  getModuleSpceifier (js "/home/u") package_native (js "/proj/src/a/New.ts")
                     (js "/proj/src/b/Bar.ts") demo_project
  = js "../b/Bar.ts".
Proof.
  refine (eq_trans
            (proj1 (native_resolver_not_consulted
                      (js "/home/u") unit (js "/proj/src/a/New.ts")
                      (js "/proj/src/b/Bar.ts") demo_project _
                      package_native package_native)) _).
  - right; left. exists demo_program. split; reflexivity.
  - vm_compute; reflexivity.
Defined.

(** X13.  The ending setting acts only through being ["minimal"] or not:
    for every setting the fallback is the ["minimal"] specifier, followed by
    the module's own extension unless the setting is ["minimal"]. *)
Theorem fallback_ending_policy :
  forall cwd selfPath modulePath base ending,
    fallbackSpecifier cwd selfPath modulePath (mkCompilerOptions base ending)
    = fallbackSpecifier cwd selfPath modulePath
                        (mkCompilerOptions base (Some (js "minimal")))
        ++ (if opt_is ending (js "minimal") then []
            else Path.extname modulePath).
Proof.
  intros cwd selfPath modulePath base ending.
  unfold fallbackSpecifier.
  cbn [baseUrl importModuleSpecifierEnding].
  change (opt_is (Some (js "minimal")) (js "js")) with false.
  change (opt_is (Some (js "minimal")) (js "minimal")) with true.
  cbv iota.
  destruct (opt_is ending (js "js")) eqn:Hjs.
  - destruct ending as [e|]; [|discriminate].
    cbn [opt_is] in *. apply str_eqb_eq in Hjs. subst e.
    change (str_eqb (js "js") (js "minimal")) with false.
    reflexivity.
  - destruct (opt_is ending (js "minimal")); [|reflexivity].
    rewrite app_nil_r. reflexivity.
Qed.

(** ** The decorated completion listing *)

Lemma completionsActive_run :
  forall cwd ServerHost tok (info : PluginCreateInfo ServerHost) o fileName
         position options,
    completionsActive tok info fileName position options ->
    languageService_getCompletionsAtPosition cwd tok info (Some o) fileName
                                             position options
    = match filterNamedImportEntries cwd (entries o) info with
      | Throw e => Throw e
      | Normal originalEntries =>
          Normal
            (Some (mkCompletionInfo
                     (isGlobalCompletion o) (isMemberCompletion o)
                     (isNewIdentifierLocation o)
                     (originalEntries ++ getCompletionEntries cwd info)))
      end.
Proof.
  intros cwd SH tok info o fileName position options
         [Htrig (program & sf & Hp & Hs & Htok)].
  unfold languageService_getCompletionsAtPosition.
  rewrite Hp, Hs.
  assert (Ht : match options with
               | Some opts =>
                   match triggerCharacter opts with
                   | Some _ => true
                   | None => false
                   end
               | None => false
               end = false).
  { destruct Htrig as [-> | [opts [-> ->]]]; reflexivity. }
  rewrite Ht. cbn [orb].
  assert (Ha : isAutoCompletablePosition tok (Some sf) position = true).
  { unfold isAutoCompletablePosition.
    destruct (tok sf position) as [[| |code]|]; try reflexivity.
    congruence. }
  rewrite Ha. reflexivity.
Qed.

(** X14.  The decorated completion listing returns what the host returned,
    untouched and without throwing, when the host returned nothing, when a
    trigger character is given, when the file is not in the program, or when
    the token at the position is a string literal. *)
Theorem completions_left_alone :
  forall cwd ServerHost tok (info : PluginCreateInfo ServerHost) original
         fileName position options,
    original = None \/
    (exists opts ch,
        options = Some opts /\ triggerCharacter opts = Some ch) \/
    languageService_getProgram info = None \/
    (exists program,
        languageService_getProgram info = Some program /\
        getSourceFile program fileName = None) \/
    (exists program sourceFile,
        languageService_getProgram info = Some program /\
        getSourceFile program fileName = Some sourceFile /\
        tok sourceFile position = Some SyntaxKind_StringLiteral) ->
    languageService_getCompletionsAtPosition cwd tok info original fileName
                                             position options
    = Normal original.
Proof.
  intros cwd SH tok info original fileName position options H.
  unfold languageService_getCompletionsAtPosition.
  destruct original as [o|]; [|reflexivity].
  destruct H as [H | [(opts & ch & -> & Hch) | H]]; [discriminate| |].
  - rewrite Hch. reflexivity.
  - assert (Ha : isAutoCompletablePosition
                   tok
                   match languageService_getProgram info with
                   | Some program => getSourceFile program fileName
                   | None => None
                   end position = false).
    { destruct H as [-> | [(program & -> & ->) | (program & sf & -> & -> & Ht)]];
        try reflexivity.
      unfold isAutoCompletablePosition. rewrite Ht. reflexivity. }
    rewrite Ha. cbn [negb]. rewrite orb_true_r. reflexivity.
Qed.

Lemma completions_left_alone_witness :
  languageService_getCompletionsAtPosition
    (js "/home/u") demo_tokens
    (mkInfo (mkOptions None (Some true) None None) demo_project
            (Some demo_program))
    (Some host_completions) (js "/proj/src/a/Foo.ts") 5 None
  = Normal (Some host_completions).
Proof.
  apply completions_left_alone.
  right; right; right; right.
  exists demo_program, demo_sourceFile. repeat split; reflexivity.
Defined.

(** X15.  At an active position with [ignoreNamedExport] off, the host's
    entries come back unchanged and in their order, followed by the plugin's
    entries, one per discovered module; the other fields of the completion
    info are kept. *)
Theorem completions_appended :
  forall cwd ServerHost tok (info : PluginCreateInfo ServerHost) o fileName
         position options,
    completionsActive tok info fileName position options ->
    JS.truthyb (ignoreNamedExport (config_options info)) = false ->
    exists result,
      languageService_getCompletionsAtPosition cwd tok info (Some o) fileName
                                               position options
      = Normal (Some result) /\
      entries result = entries o ++ getCompletionEntries cwd info /\
      List.length (entries result)
      = (List.length (entries o)
         + List.length (getModulePathsToImport cwd (config_options info)
                                               (project info)))%nat /\
      isGlobalCompletion result = isGlobalCompletion o /\
      isMemberCompletion result = isMemberCompletion o /\
      isNewIdentifierLocation result = isNewIdentifierLocation o.
Proof.
  intros cwd SH tok info o fileName position options Hact Hoff.
  rewrite (completionsActive_run _ _ _ _ _ _ _ _ Hact).
  unfold filterNamedImportEntries. rewrite Hoff. cbn [negb].
  eexists. split; [reflexivity|]. cbn [entries isGlobalCompletion
                                       isMemberCompletion
                                       isNewIdentifierLocation].
  split; [reflexivity|]. split; [|repeat split].
  rewrite length_app. f_equal.
  unfold getCompletionEntries. apply length_map.
Qed.

Lemma completions_appended_witness :
  exists result,
    languageService_getCompletionsAtPosition
      (js "/home/u") demo_tokens demo_info (Some host_completions)
      (js "/proj/src/a/Foo.ts") 1 None
    = Normal (Some result) /\
    List.length (entries result) = 3%nat.
Proof.
  destruct (completions_appended
              (js "/home/u") unit demo_tokens demo_info host_completions
              (js "/proj/src/a/Foo.ts") 1 None)
    as (result & Hr & _ & Hlen & _).
  - split; [left; reflexivity|].
    exists demo_program, demo_sourceFile. repeat split; try reflexivity.
    discriminate.
  - reflexivity.
  - exists result. split; [exact Hr|]. rewrite Hlen. reflexivity.
Defined.

(** X16.  At an active position with host completions, [ignoreNamedExport]
    set and [paths] absent, the decorated completion listing throws the
    [TypeError] of [filterNamedImportEntries] in place of returning the
    host's completions; the throw comes before any module is discovered. *)
Theorem completions_throw_without_paths :
  forall cwd ServerHost tok (info : PluginCreateInfo ServerHost) o file
         position options,
    completionsActive tok info file position options ->
    JS.truthyb (ignoreNamedExport (config_options info)) = true ->
    paths (config_options info) = None ->
    filterNamedImportEntries cwd (entries o) info = Throw TypeError /\
    languageService_getCompletionsAtPosition cwd tok info (Some o) file
                                             position options
    = Throw TypeError.
Proof.
  intros cwd SH tok info o file position options Hact Hon Hps.
  assert (Hf : filterNamedImportEntries cwd (entries o) info
               = Throw TypeError).
  { unfold filterNamedImportEntries. rewrite Hon, Hps. reflexivity. }
  split; [exact Hf|].
  rewrite (completionsActive_run _ _ _ _ _ _ _ _ Hact), Hf.
  reflexivity.
Qed.

Lemma completions_throw_without_paths_witness :
  languageService_getCompletionsAtPosition
    (js "/home/u") demo_tokens
    (mkInfo (mkOptions None (Some true) None None) demo_project
            (Some demo_program))
    (Some host_completions) (js "/proj/src/a/Foo.ts") 1 None
  = Throw TypeError.
Proof.
  assert (Hact : completionsActive
                   demo_tokens
                   (mkInfo (mkOptions None (Some true) None None) demo_project
                           (Some demo_program))
                   (js "/proj/src/a/Foo.ts") 1 None).
  { split; [left; reflexivity|].
    exists demo_program, demo_sourceFile. repeat split; try reflexivity.
    discriminate. }
  apply (proj2 (completions_throw_without_paths
                  (js "/home/u") unit demo_tokens _ host_completions
                  (js "/proj/src/a/Foo.ts") 1 None Hact eq_refl eq_refl)).
Defined.

(** X17.  At an active position with [ignoreNamedExport] set and [paths]
    given, the final entries are the host's entries with the suppressed
    ones taken out, the others staying in their order and number, followed
    by the plugin's entries; no suppressed entry is among them. *)
Theorem completions_suppress_named_exports :
  forall cwd ServerHost tok (info : PluginCreateInfo ServerHost) o file
         position options ps,
    completionsActive tok info file position options ->
    JS.truthyb (ignoreNamedExport (config_options info)) = true ->
    paths (config_options info) = Some ps ->
    exists result keep,
      languageService_getCompletionsAtPosition cwd tok info (Some o) file
                                               position options
      = Normal (Some result) /\
      (forall e,
          keep e = true <->
          ~ suppressedBy cwd (getCurrentDirectory (project info)) ps e) /\
      entries result
      = filter keep (entries o) ++ getCompletionEntries cwd info /\
      isGlobalCompletion result = isGlobalCompletion o /\
      isMemberCompletion result = isMemberCompletion o /\
      isNewIdentifierLocation result = isNewIdentifierLocation o /\
      forall e,
        suppressedBy cwd (getCurrentDirectory (project info)) ps e ->
        ~ In e (entries result).
Proof.
  intros cwd SH tok info o file position options ps Hact Hon Hps.
  rewrite (completionsActive_run _ _ _ _ _ _ _ _ Hact).
  unfold filterNamedImportEntries. rewrite Hon, Hps. cbn [negb].
  set (keep :=
         fun entry : CompletionEntry =>
           negb
             (existsb
                (fun dirPath =>
                   match data entry with
                   | Some d =>
                       JS.truthy (exportName d) &&
                       match fileName d with
                       | Some f => JS.startsWith f dirPath
                       | None => false
                       end
                   | None => false
                   end)
                (map (fun dirPath =>
                        Path.resolve
                          cwd [getCurrentDirectory (project info); dirPath])
                     ps))).
  assert (Hkeep : forall e,
             keep e = true <->
             ~ suppressedBy cwd (getCurrentDirectory (project info)) ps e).
  { intros e. unfold keep. rewrite negb_true_iff.
    rewrite <- suppressedBy_existsb, not_true_iff_false. reflexivity. }
  eexists. exists keep. split; [reflexivity|].
  cbn [entries isGlobalCompletion isMemberCompletion
       isNewIdentifierLocation].
  split; [exact Hkeep|]. split; [reflexivity|].
  split; [reflexivity|]. split; [reflexivity|]. split; [reflexivity|].
  intros e Hsup Hin. apply in_app_iff in Hin. destruct Hin as [Hin | Hin].
  - apply filter_In in Hin. destruct Hin as [_ Hk].
    apply Hkeep in Hk. exact (Hk Hsup).
  - unfold getCompletionEntries in Hin. apply in_map_iff in Hin.
    destruct Hin as [mp [<- _]].
    destruct Hsup as (d & f & root & Hd & _ & Hf & _).
    cbn in Hd. injection Hd as <-. cbn in Hf. discriminate.
Qed.

Lemma completions_suppress_named_exports_witness :
  exists result,
    languageService_getCompletionsAtPosition
      (js "/home/u") demo_tokens
      (mkInfo (mkOptions (Some [js "src/b"]) (Some true) None None)
              demo_project (Some demo_program))
      (Some host_completions) (js "/proj/src/a/Foo.ts") 1 None
    = Normal (Some result) /\
    ~ In host_entry (entries result).
Proof.
  destruct (completions_suppress_named_exports
              (js "/home/u") unit demo_tokens
              (mkInfo (mkOptions (Some [js "src/b"]) (Some true) None None)
                      demo_project (Some demo_program))
              host_completions (js "/proj/src/a/Foo.ts") 1 None [js "src/b"])
    as (result & keep & Hr & _ & _ & _ & _ & _ & Hsup).
  - split; [left; reflexivity|].
    exists demo_program, demo_sourceFile. repeat split; try reflexivity.
    discriminate.
  - reflexivity.
  - reflexivity.
  - exists result. split; [exact Hr|]. apply Hsup.
    exists (mkData (Some (js "make")) (Some (js "/proj/src/b/Bar.ts")) None),
      (js "/proj/src/b/Bar.ts"), (js "src/b").
    repeat split; try reflexivity. left; reflexivity.
Defined.

(** ** The decorated completion details *)

(** X18.  Accepting an entry made by [getCompletionEntries] always reaches
    the plugin, whatever [namespaceNamedExports] and the host's own details
    are: the entry's source and the module path of its payload are one
    discovered module, and the details carry the entry's name and one
    action, which inserts at the start of the file the import of that name
    from the specifier of that module. *)
Theorem completion_then_details :
  forall cwd ServerHost native namespaceNamedExports
         (info : PluginCreateInfo ServerHost) hostDetails file position e,
    In e (getCompletionEntries cwd info) ->
    exists mp action,
      source e = Some mp /\
      data_modulePath (data e) = Some mp /\
      In mp (getModulePathsToImport cwd (config_options info) (project info))
      /\
      entry_name e
      = transformImportName (getFileNameWithoutExt mp) (config_options info)
      /\
      languageService_getCompletionEntryDetails
        cwd native namespaceNamedExports info hostDetails file position
        (entry_name e) (source e) (data e)
      = Some (mkDetails (entry_name e) ScriptElementKind_alias [] [] [action])
      /\
      isPrependEdit
        file
        (importStatement (entry_name e)
                         (getModuleSpceifier cwd native file mp (project info)))
        action.
Proof.
  intros cwd SH native nne info hostDetails file position e He.
  unfold getCompletionEntries in He. apply in_map_iff in He.
  destruct He as [mp [<- Hmp]].
  exists mp.
  exists (getCodeFixActionFromPath
            cwd native
            (transformImportName (getFileNameWithoutExt mp)
                                 (config_options info))
            file mp (project info)).
  split; [reflexivity|]. split; [reflexivity|].
  split; [exact Hmp|]. split; [reflexivity|]. split.
  - unfold languageService_getCompletionEntryDetails.
    cbn [source data data_modulePath modulePath entry_name].
    destruct mp as [|ch mp].
    + cbn [JS.truthy andb]. rewrite andb_false_r. reflexivity.
    + cbn [JS.truthy negb]. rewrite andb_false_r. reflexivity.
  - apply getCodeFixActionFromPath_edit.
Qed.

Lemma completion_then_details_witness :
  exists mp action,
    source bar_entry = Some mp /\
    data_modulePath (data bar_entry) = Some mp /\
    In mp (getModulePathsToImport (js "/home/u") (config_options demo_info)
                                  (project demo_info)) /\
    entry_name bar_entry
    = transformImportName (getFileNameWithoutExt mp) (config_options demo_info)
    /\
    languageService_getCompletionEntryDetails
      (js "/home/u") throwing_native (Some true) demo_info None
      (js "/proj/src/a/Foo.ts") 0 (entry_name bar_entry) (source bar_entry)
      (data bar_entry)
    = Some (mkDetails (entry_name bar_entry) ScriptElementKind_alias [] []
                      [action]) /\
    isPrependEdit
      (js "/proj/src/a/Foo.ts")
      (importStatement
         (entry_name bar_entry)
         (getModuleSpceifier (js "/home/u") throwing_native
                             (js "/proj/src/a/Foo.ts") mp (project demo_info)))
      action.
Proof.
  assert (Hin : In bar_entry (getCompletionEntries (js "/home/u") demo_info)).
  { vm_compute. left. reflexivity. }
  exact (completion_then_details
           (js "/home/u") unit throwing_native (Some true) demo_info None
           (js "/proj/src/a/Foo.ts") 0 bar_entry Hin).
Defined.

(** X19.  For an entry without a module path in its payload, the host's own
    details come back unchanged when [namespaceNamedExports] is off, when no
    source is given, or when the source matches no discovered module. *)
Theorem details_left_to_host :
  forall cwd ServerHost native namespaceNamedExports
         (info : PluginCreateInfo ServerHost) hostDetails file position name
         source data,
    data_modulePath data = None ->
    JS.truthyb namespaceNamedExports = false \/
    JS.truthy source = false \/
    (exists src,
        source = Some src /\
        forall m,
          In m (getModulePathsToImport cwd (config_options info)
                                       (project info)) ->
          sourceMatches src m = false) ->
    languageService_getCompletionEntryDetails
      cwd native namespaceNamedExports info hostDetails file position name
      source data
    = hostDetails.
Proof.
  intros cwd SH native nne info hostDetails file position name source data
         Hdata H.
  unfold languageService_getCompletionEntryDetails. rewrite Hdata.
  destruct H as [-> | [-> | (src & -> & Hno)]].
  - reflexivity.
  - rewrite andb_false_r. reflexivity.
  - destruct (_ && _); [|reflexivity].
    destruct (find _ _) as [m|] eqn:Hfind; [|reflexivity].
    apply find_some in Hfind. destruct Hfind as [Hin Hm].
    specialize (Hno m Hin). unfold sourceMatches in Hno.
    cbv zeta in Hm. rewrite Hno in Hm. discriminate.
Qed.

Lemma details_left_to_host_witness :
  languageService_getCompletionEntryDetails
    (js "/home/u") throwing_native None demo_info None
    (js "/proj/src/a/Foo.ts") 0 (js "make") (Some (js "./b/Bar"))
    (Some (mkData (Some (js "make")) (Some (js "/proj/src/b/Bar.ts")) None))
  = None.
Proof.
  apply details_left_to_host; [reflexivity|].
  left. reflexivity.
Defined.

(** X20.  With [namespaceNamedExports] on, a non-empty source and no module
    path in the payload, the details are those of a namespace import of the
    first discovered module whose basename-without-extension occurs in the
    source or whose path contains the source; the namespace is that
    module's transformed basename, and the requested name and the host's
    details play no part. *)
Theorem details_redirected_to_namespace_import :
  forall cwd ServerHost native (info : PluginCreateInfo ServerHost)
         hostDetails file position name src data before m after,
    src <> [] ->
    JS.truthy (data_modulePath data) = false ->
    getModulePathsToImport cwd (config_options info) (project info)
    = before ++ m :: after ->
    (forall x, In x before -> sourceMatches src x = false) ->
    sourceMatches src m = true ->
    m <> [] ->
    languageService_getCompletionEntryDetails
      cwd native (Some true) info hostDetails file position name (Some src)
      data
    = Some (getCompletionEntryDetails
              cwd native
              (transformImportName (getFileNameWithoutExt m)
                                   (config_options info))
              file m info).
Proof.
  intros cwd SH native info hostDetails file position name src data
         before m after Hsrc Hdata Hdisc Hbefore Hm Hne.
  unfold languageService_getCompletionEntryDetails.
  rewrite Hdata, Hdisc.
  destruct src as [|ch src]; [congruence|].
  cbn [JS.truthyb JS.truthy andb negb].
  erewrite find_first; [|exact Hbefore|exact Hm].
  destruct m as [|mc m]; [congruence|]. reflexivity.
Qed.

Lemma details_redirected_to_namespace_import_witness :
  languageService_getCompletionEntryDetails
    (js "/home/u") throwing_native (Some true) demo_info None
    (js "/proj/src/a/Foo.ts") 0 (js "make") (Some (js "./b/Bar"))
    (Some (mkData (Some (js "make")) (Some (js "/proj/src/b/Bar.ts")) None))
  = Some (getCompletionEntryDetails
            (js "/home/u") throwing_native (js "Bar")
            (js "/proj/src/a/Foo.ts") (js "/proj/src/b/Bar.ts") demo_info).
Proof.
  apply (details_redirected_to_namespace_import
           (js "/home/u") unit throwing_native demo_info None
           (js "/proj/src/a/Foo.ts") 0 (js "make") (js "./b/Bar")
           (Some (mkData (Some (js "make")) (Some (js "/proj/src/b/Bar.ts"))
                         None))
           [] (js "/proj/src/b/Bar.ts") [js "/proj/src/b/util.ts"]).
  - discriminate.
  - reflexivity.
  - vm_compute; reflexivity.
  - intros x [].
  - vm_compute; reflexivity.
  - discriminate.
Defined.

(** ** The last component of a path: [basename], [extname] and
       [getFileNameWithoutExt] *)

Lemma slice_to_end (p : str) (a : Z) :
  0 <= a <= JS.len p -> JS.slice p a (JS.len p) = skipn (Z.to_nat a) p.
Proof.
  intros H. unfold JS.slice, JS.clamp, JS.len in *.
  destruct (a <? 0) eqn:Ea; [lia|].
  destruct (Z.of_nat (List.length p) <? 0) eqn:El; [lia|].
  replace (Z.min a (Z.of_nat (List.length p))) with a by lia.
  apply firstn_all2. rewrite length_skipn. lia.
Qed.

Lemma extname_scan_to_end (p : str) :
  p <> [] -> endsWithSlash p = false ->
  let st := Path.extname_scan p in
  Path.ext_end st = JS.len p /\
  (Path.startDot st = -1 \/ 0 <= Path.startDot st < JS.len p).
Proof.
  intros Hne Hend. cbv zeta. unfold Path.extname_scan.
  apply (for_down_rule
           0 (Path.extname_body p)
           (fun k st =>
              (k <= List.length p)%nat /\
              (k = List.length p -> st = ext_init) /\
              ((k < List.length p)%nat -> Path.ext_end st = JS.len p) /\
              (Path.startDot st = -1 \/
               Z.of_nat k <= Path.startDot st < JS.len p))
           (fun st =>
              Path.ext_end st = JS.len p /\
              (Path.startDot st = -1 \/ 0 <= Path.startDot st < JS.len p))).
  - intros k st (Hk & Hinit & Hlater & Hsd).
    unfold Path.extname_body.
    destruct (Nat.eq_dec (S k) (List.length p)) as [Htop | Hlow].
    + (* the last character, not a slash *)
      rewrite (Hinit Htop).
      replace (0 + Z.of_nat k) with (JS.len p - 1) by (unfold JS.len; lia).
      unfold endsWithSlash in Hend. rewrite Hend.
      unfold ext_init, JS.len in *.
      cbn [Path.startDot Path.startPart Path.ext_end Path.ext_matchedSlash
           Path.preDotState].
      repeat break_if;
        cbn [fst snd Path.startDot Path.startPart Path.ext_end
             Path.ext_matchedSlash Path.preDotState] in *;
        try discriminate; repeat split; try lia; intros; lia.
    + specialize (Hlater ltac:(lia)).
      destruct st as [sd sp e m pd]. unfold JS.len in *.
      cbn [Path.startDot Path.startPart Path.ext_end Path.ext_matchedSlash
           Path.preDotState] in *.
      repeat break_if;
        cbn [fst snd Path.startDot Path.startPart Path.ext_end
             Path.ext_matchedSlash Path.preDotState] in *;
        try discriminate; repeat split; try lia; intros; lia.
  - intros st (Hk & _ & Hlater & Hsd). split; [|lia].
    apply Hlater. destruct p; [congruence|cbn [List.length]; lia].
  - repeat split; try lia. left; reflexivity.
Qed.

(** X21.  For a path that does not end with a slash,
    [getFilePathWithoutExt] and [path.extname] cut the path in two: the
    path without its extension, followed by the extension, is the path. *)
Theorem getFilePathWithoutExt_extname_split :
  forall p : str,
    endsWithSlash p = false ->
    getFilePathWithoutExt p ++ Path.extname p = p.
Proof.
  intros p Hend. destruct p as [|c p]; [reflexivity|].
  rewrite getFilePathWithoutExt_firstn.
  pose proof (extname_scan_to_end (c :: p) ltac:(discriminate) Hend)
    as [He Hsd].
  cbv zeta in He, Hsd. unfold Path.extname.
  destruct (_ || _) eqn:Hc.
  - cbn [List.length]. rewrite Nat.sub_0_r, app_nil_r.
    apply firstn_all2. cbn [List.length]. lia.
  - rewrite He.
    assert (Hsd' : 0 <= Path.startDot (Path.extname_scan (c :: p))
                   < JS.len (c :: p)) by lia.
    rewrite slice_to_end by lia.
    rewrite length_skipn.
    replace (List.length (c :: p)
             - (List.length (c :: p)
                - Z.to_nat (Path.startDot (Path.extname_scan (c :: p)))))%nat
      with (Z.to_nat (Path.startDot (Path.extname_scan (c :: p))))
      by (unfold JS.len in Hsd'; lia).
    apply firstn_skipn.
Qed.

Lemma getFilePathWithoutExt_extname_split_witness :
  getFilePathWithoutExt (js "../b/Bar.test.ts")
                        ++ Path.extname (js "../b/Bar.test.ts")
  = js "../b/Bar.test.ts".
Proof.
  apply getFilePathWithoutExt_extname_split. reflexivity.
Defined.

Example getFilePathWithoutExt_trailing_slash :
  getFilePathWithoutExt (js "./foo.ts/") ++ Path.extname (js "./foo.ts/")
  = js "./foo..ts".
Proof. vm_compute; reflexivity. Qed.

Lemma lastComponent_unique (p : str) (sp e sp' e' : Z) :
  lastComponent p sp e -> lastComponent p sp' e' -> sp = sp' /\ e = e'.
Proof.
  intros (H1 & H2 & Hn & Hs & Hb) (H1' & H2' & Hn' & Hs' & Hb').
  assert (He : e = e').
  { destruct (Z.lt_trichotomy e e') as [Hlt | [Heq | Hgt]]; [|exact Heq|].
    - specialize (Hs (e' - 1) ltac:(lia)).
      specialize (Hn' (e' - 1) ltac:(lia)). congruence.
    - specialize (Hs' (e - 1) ltac:(lia)).
      specialize (Hn (e - 1) ltac:(lia)). congruence. }
  subst e'. split; [|reflexivity].
  destruct (Z.lt_trichotomy sp sp') as [Hlt | [Heq | Hgt]]; [|exact Heq|].
  - destruct Hb' as [Hb' | Hb']; [lia|].
    specialize (Hn (sp' - 1) ltac:(lia)). congruence.
  - destruct Hb as [Hb | Hb]; [lia|].
    specialize (Hn' (sp - 1) ltac:(lia)). congruence.
Qed.

Lemma basename_plain_scan (p : str) :
  let st := JS.for_down 0 (List.length p) (Path.basename_plain_body p)
                        (Path.mkBase 0 (-1) true (-1) (-1)) in
  (Path.b_end st = -1 /\ forall j, 0 <= j < JS.len p -> isSlashAt p j = true)
  \/ lastComponent p (Path.b_start st) (Path.b_end st).
Proof.
  cbv zeta.
  apply (for_down_rule
           0 (Path.basename_plain_body p)
           (fun k st =>
              (k <= List.length p)%nat /\ Path.b_start st = 0 /\
              ((Path.b_matchedSlash st = true /\ Path.b_end st = -1 /\
                forall j, Z.of_nat k <= j < JS.len p -> isSlashAt p j = true)
               \/
               (Path.b_matchedSlash st = false /\
                Z.of_nat k < Path.b_end st <= JS.len p /\
                (forall j, Z.of_nat k <= j < Path.b_end st ->
                           isSlashAt p j = false) /\
                (forall j, Path.b_end st <= j < JS.len p ->
                           isSlashAt p j = true))))).
  - intros k st (Hk & Hs & Hcase).
    unfold Path.basename_plain_body. rewrite Z.add_0_l.
    fold (isSlashAt p (Z.of_nat k)).
    destruct st as [s0 e0 m0 x0 f0].
    cbn [Path.b_start Path.b_end Path.b_matchedSlash] in *. subst s0.
    destruct (isSlashAt p (Z.of_nat k)) eqn:Hsl.
    + destruct Hcase as [(-> & -> & Hall) | (-> & Hb & Hns & Hall)];
        cbn [negb fst snd Path.b_start Path.b_end Path.b_matchedSlash].
      * split; [lia|]. split; [reflexivity|]. left. repeat split.
        intros j Hj. destruct (Z.eq_dec j (Z.of_nat k)) as [-> | Hne];
          [exact Hsl | apply Hall; lia].
      * right. unfold lastComponent. repeat split; try lia.
        -- intros j Hj. apply Hns. lia.
        -- exact Hall.
        -- right. replace (Z.of_nat k + 1 - 1) with (Z.of_nat k) by lia.
           exact Hsl.
    + destruct Hcase as [(-> & -> & Hall) | (-> & Hb & Hns & Hall)];
        cbn [negb fst snd Path.b_start Path.b_end Path.b_matchedSlash].
      * rewrite Z.eqb_refl.
        cbn [negb fst snd Path.b_start Path.b_end Path.b_matchedSlash].
        split; [lia|]. split; [reflexivity|]. right.
        unfold JS.len in *. repeat split; try lia.
        -- intros j Hj. replace j with (Z.of_nat k) by lia. exact Hsl.
        -- intros j Hj. apply Hall. lia.
      * destruct (e0 =? -1) eqn:E; [lia|].
        cbn [fst snd Path.b_start Path.b_end Path.b_matchedSlash].
        split; [lia|]. split; [reflexivity|]. right.
        repeat split; try lia.
        -- intros j Hj. destruct (Z.eq_dec j (Z.of_nat k)) as [-> | Hne];
             [exact Hsl | apply Hns; lia].
        -- exact Hall.
  - intros st (_ & Hs & [(_ & He & Hall) | (_ & Hb & Hns & Hall)]).
    + left. split; [exact He|]. intros j Hj. apply Hall. lia.
    + right. rewrite Hs. unfold lastComponent. repeat split; try lia.
      * intros j Hj. apply Hns. lia.
      * exact Hall.
  - split; [lia|]. split; [reflexivity|]. left. repeat split.
    intros j Hj. unfold JS.len in Hj. lia.
Qed.

Lemma extname_scan_component (p : str) :
  let st := Path.extname_scan p in
  (Path.ext_end st = -1 /\ forall j, 0 <= j < JS.len p -> isSlashAt p j = true)
  \/
  (lastComponent p (Path.startPart st) (Path.ext_end st) /\
   (Path.startDot st = -1 \/
    Path.startPart st <= Path.startDot st < Path.ext_end st) /\
   (Path.preDotState st = 0 \/ Path.startPart st + 1 <= Path.startDot st)).
Proof.
  cbv zeta. unfold Path.extname_scan.
  apply (for_down_rule
           0 (Path.extname_body p)
           (fun k st =>
              (k <= List.length p)%nat /\ Path.startPart st = 0 /\
              ((Path.ext_matchedSlash st = true /\ Path.ext_end st = -1 /\
                Path.startDot st = -1 /\ Path.preDotState st = 0 /\
                forall j, Z.of_nat k <= j < JS.len p -> isSlashAt p j = true)
               \/
               (Path.ext_matchedSlash st = false /\
                Z.of_nat k < Path.ext_end st <= JS.len p /\
                (forall j, Z.of_nat k <= j < Path.ext_end st ->
                           isSlashAt p j = false) /\
                (forall j, Path.ext_end st <= j < JS.len p ->
                           isSlashAt p j = true) /\
                (Path.startDot st = -1 \/
                 Z.of_nat k <= Path.startDot st < Path.ext_end st) /\
                (Path.preDotState st = 0 \/
                 Z.of_nat k + 1 <= Path.startDot st))))).
  - intros k st (Hk & Hs & Hcase).
    unfold Path.extname_body. rewrite Z.add_0_l.
    fold (isSlashAt p (Z.of_nat k)).
    destruct st as [sd sp e m pd].
    cbn [Path.startDot Path.startPart Path.ext_end Path.ext_matchedSlash
         Path.preDotState] in *. subst sp.
    destruct (isSlashAt p (Z.of_nat k)) eqn:Hsl.
    + destruct Hcase as [(-> & -> & -> & -> & Hall)
                        | (-> & Hb & Hns & Hall & Hsd & Hpd)];
        cbn [negb fst snd Path.startDot Path.startPart Path.ext_end
             Path.ext_matchedSlash Path.preDotState].
      * split; [lia|]. split; [reflexivity|]. left. repeat split.
        intros j Hj. destruct (Z.eq_dec j (Z.of_nat k)) as [-> | Hne];
          [exact Hsl | apply Hall; lia].
      * right. unfold lastComponent. repeat split; try lia.
        -- intros j Hj. apply Hns. lia.
        -- exact Hall.
        -- right. replace (Z.of_nat k + 1 - 1) with (Z.of_nat k) by lia.
           exact Hsl.
    + destruct Hcase as [(-> & -> & -> & -> & Hall)
                        | (-> & Hb & Hns & Hall & Hsd & Hpd)].
      * rewrite Z.eqb_refl.
        cbn [negb fst snd Path.startDot Path.startPart Path.ext_end
             Path.ext_matchedSlash Path.preDotState].
        rewrite Z.eqb_refl. cbn [negb].
        unfold JS.len in *.
        destruct (JS.code_is (JS.charCodeAt p (Z.of_nat k)) Path.CHAR_DOT);
          cbn [negb fst snd Path.startDot Path.startPart Path.ext_end
               Path.ext_matchedSlash Path.preDotState];
          (split; [lia|]); (split; [reflexivity|]); right;
          (repeat split; try lia);
          try (intros j Hj; replace j with (Z.of_nat k) by lia; exact Hsl);
          intros j Hj; apply Hall; lia.
      * destruct (e =? -1) eqn:E; [lia|].
        repeat break_if;
          cbn [negb fst snd Path.startDot Path.startPart Path.ext_end
               Path.ext_matchedSlash Path.preDotState] in *;
          try discriminate;
          (split; [lia|]); (split; [reflexivity|]); right;
          (repeat split; try lia); try exact Hall;
          intros j Hj; (destruct (Z.eq_dec j (Z.of_nat k)) as [-> | Hne];
                        [exact Hsl | apply Hns; lia]).
  - intros st (_ & Hs & [(_ & He & _ & _ & Hall)
                        | (_ & Hb & Hns & Hall & Hsd & Hpd)]).
    + left. split; [exact He|]. intros j Hj. apply Hall. lia.
    + right. rewrite Hs. unfold lastComponent. repeat split; try lia.
      * intros j Hj. apply Hns. lia.
      * exact Hall.
  - split; [lia|]. split; [reflexivity|]. left. repeat split.
    intros j Hj. unfold JS.len in Hj. lia.
Qed.

Lemma slice_in_range (p : str) (a b : Z) :
  0 <= a <= b -> b <= JS.len p ->
  JS.slice p a b = firstn (Z.to_nat (b - a)) (skipn (Z.to_nat a) p).
Proof.
  intros Ha Hb. unfold JS.slice, JS.clamp, JS.len in *.
  destruct (a <? 0) eqn:Ea; [lia|]. destruct (b <? 0) eqn:Eb; [lia|].
  f_equal; [|f_equal]; lia.
Qed.

Lemma slice_len (p : str) (a b : Z) :
  0 <= a <= b -> b <= JS.len p -> JS.len (JS.slice p a b) = b - a.
Proof.
  intros Ha Hb. rewrite slice_in_range by assumption.
  unfold JS.len in *. rewrite length_firstn, length_skipn. lia.
Qed.

Lemma charCodeAt_slice (p : str) (a b t : Z) :
  0 <= a -> b <= JS.len p -> 0 <= t < b - a ->
  JS.charCodeAt (JS.slice p a b) t = JS.charCodeAt p (a + t).
Proof.
  intros Ha Hb Ht. rewrite slice_in_range by lia.
  unfold JS.charCodeAt.
  destruct (t <? 0) eqn:E1; [lia|]. destruct (a + t <? 0) eqn:E2; [lia|].
  rewrite nth_error_firstn, nth_error_skipn.
  destruct (Nat.ltb_spec (Z.to_nat t) (Z.to_nat (b - a))) as [_ | H]; [|lia].
  f_equal. lia.
Qed.

Lemma code_eqb_same (p : str) (j : Z) :
  0 <= j < JS.len p ->
  JS.code_eqb (JS.charCodeAt p j) (JS.charCodeAt p j) = true.
Proof.
  intros Hj. unfold JS.charCodeAt, JS.len in *.
  destruct (j <? 0) eqn:E; [lia|].
  destruct (nth_error p (Z.to_nat j)) as [c|] eqn:Hn.
  - cbn. apply Ascii.eqb_refl.
  - apply nth_error_None in Hn. lia.
Qed.

Lemma slice_app (p : str) (a b c : Z) :
  0 <= a <= b -> b <= c -> c <= JS.len p ->
  JS.slice p a b ++ JS.slice p b c = JS.slice p a c.
Proof.
  intros Ha Hb Hc. rewrite !slice_in_range by lia.
  replace (skipn (Z.to_nat b) p)
    with (skipn (Z.to_nat (b - a)) (skipn (Z.to_nat a) p))
    by (rewrite skipn_skipn; f_equal; lia).
  set (q := skipn (Z.to_nat a) p).
  replace (Z.to_nat (c - a)) with (Z.to_nat (b - a) + Z.to_nat (c - b))%nat
    by lia.
  rewrite <- (firstn_skipn (Z.to_nat (b - a)) q) at 3.
  assert (Hlen : List.length (firstn (Z.to_nat (b - a)) q)
                 = Z.to_nat (b - a)).
  { apply firstn_length_le. subst q. rewrite length_skipn.
    unfold JS.len in Hc. lia. }
  rewrite <- Hlen at 3. rewrite firstn_app_2. reflexivity.
Qed.

Lemma slice_Forall_index (P : ascii -> Prop) (p : str) (a b : Z) :
  0 <= a <= b -> b <= JS.len p ->
  (forall j c, a <= j < b -> JS.charCodeAt p j = Some c -> P c) ->
  Forall P (JS.slice p a b).
Proof.
  intros Ha Hb H. apply Forall_forall. intros x Hx.
  apply In_nth_error in Hx. destruct Hx as [i Hi].
  assert (Hlt : (i < List.length (JS.slice p a b))%nat).
  { apply nth_error_Some. congruence. }
  pose proof (slice_len p a b Ha Hb) as Hl. unfold JS.len in Hl.
  apply (H (a + Z.of_nat i) x); [lia|].
  rewrite <- (charCodeAt_slice p a b (Z.of_nat i)) by lia.
  unfold JS.charCodeAt. destruct (Z.of_nat i <? 0) eqn:E; [lia|].
  rewrite Nat2Z.id. exact Hi.
Qed.

Lemma basename_suffix_scan (p : str) (sp sd e : Z) :
  lastComponent p sp e -> sp < sd < e ->
  let st := JS.for_down 0 (List.length p)
                        (Path.basename_suffix_body p (JS.slice p sd e))
                        (Path.mkBase 0 (-1) true (e - sd - 1) (-1)) in
  Path.b_start st = sp /\ Path.b_end st = sd.
Proof.
  intros (Hsp & He & Hns & Hall & Hbefore) Hsd. cbv zeta.
  apply (for_down_rule
           0 (Path.basename_suffix_body p (JS.slice p sd e))
           (fun k st =>
              (k <= List.length p)%nat /\ Path.b_start st = 0 /\
              ((Path.b_matchedSlash st = true /\
                Path.firstNonSlashEnd st = -1 /\ Path.b_end st = -1 /\
                Path.extIdx st = e - sd - 1 /\ e <= Z.of_nat k)
               \/
               (Path.b_matchedSlash st = false /\
                Path.firstNonSlashEnd st = e /\ Path.b_end st = -1 /\
                Path.extIdx st = Z.of_nat k - sd - 1 /\ sd < Z.of_nat k < e)
               \/
               (Path.b_matchedSlash st = false /\
                Path.firstNonSlashEnd st = e /\ Path.b_end st = sd /\
                Path.extIdx st = -1 /\ sp <= Z.of_nat k <= sd)))).
  - intros k st (Hk & Hs & Hcase).
    unfold Path.basename_suffix_body. rewrite Z.add_0_l.
    fold (isSlashAt p (Z.of_nat k)).
    destruct st as [s0 e0 m0 x0 f0].
    cbn [Path.b_start Path.b_end Path.b_matchedSlash Path.extIdx
         Path.firstNonSlashEnd] in *. subst s0.
    assert (Hmatch : sd <= Z.of_nat k < e ->
                     JS.code_eqb (JS.charCodeAt p (Z.of_nat k))
                                 (JS.charCodeAt (JS.slice p sd e)
                                                (Z.of_nat k - sd)) = true).
    { intros Hr. rewrite charCodeAt_slice by lia.
      replace (sd + (Z.of_nat k - sd)) with (Z.of_nat k) by lia.
      apply code_eqb_same. lia. }
    destruct Hcase as [(-> & -> & -> & -> & Hke)
                      | [(-> & -> & -> & -> & Hkr)
                        | (-> & -> & -> & -> & Hkr)]].
    + (* trailing slashes, then the last character of the component *)
      destruct (Z.eq_dec e (Z.of_nat k + 1)) as [Heq | Hne].
      * rewrite (Hns (Z.of_nat k)) by lia.
        rewrite Z.eqb_refl.
        cbn [Path.b_start Path.b_end Path.b_matchedSlash Path.extIdx
             Path.firstNonSlashEnd].
        replace (e - sd - 1) with (Z.of_nat k - sd) by lia.
        rewrite Hmatch by lia.
        destruct (Z.of_nat k - sd >=? 0) eqn:E1; [|lia].
        destruct (Z.of_nat k - sd - 1 =? -1) eqn:E2;
          cbn [fst snd Path.b_start Path.b_end Path.b_matchedSlash Path.extIdx
               Path.firstNonSlashEnd];
          (split; [lia|]); (split; [reflexivity|]); right.
        -- right. repeat split; lia.
        -- left. repeat split; lia.
      * rewrite (Hall (Z.of_nat k)) by (unfold JS.len; lia).
        cbn [negb fst snd Path.b_start Path.b_end Path.b_matchedSlash
             Path.extIdx Path.firstNonSlashEnd].
        split; [lia|]. split; [reflexivity|]. left. repeat split; lia.
    + (* inside the extension *)
      rewrite (Hns (Z.of_nat k)) by lia.
      replace (Z.of_nat (S k) - sd - 1) with (Z.of_nat k - sd) by lia.
      destruct (e =? -1) eqn:Ee; [lia|].
      cbn [Path.b_start Path.b_end Path.b_matchedSlash Path.extIdx
           Path.firstNonSlashEnd].
      rewrite Hmatch by lia.
      destruct (Z.of_nat k - sd >=? 0) eqn:E1; [|lia].
      destruct (Z.of_nat k - sd - 1 =? -1) eqn:E2;
        cbn [fst snd Path.b_start Path.b_end Path.b_matchedSlash Path.extIdx
             Path.firstNonSlashEnd];
        (split; [lia|]); (split; [reflexivity|]); right.
      * right. repeat split; lia.
      * left. repeat split; lia.
    + (* before the extension *)
      destruct (Z.eq_dec sp (Z.of_nat k + 1)) as [Heq | Hne].
      * destruct Hbefore as [H0 | Hb]; [lia|].
        replace (sp - 1) with (Z.of_nat k) in Hb by lia. rewrite Hb.
        cbn [negb fst snd Path.b_start Path.b_end Path.b_matchedSlash
             Path.extIdx Path.firstNonSlashEnd].
        split; [lia|reflexivity].
      * rewrite (Hns (Z.of_nat k)) by lia.
        destruct (e =? -1) eqn:Ee; [lia|].
        cbn [negb fst snd Path.b_start Path.b_end Path.b_matchedSlash
             Path.extIdx Path.firstNonSlashEnd Z.geb Z.compare].
        split; [lia|]. split; [reflexivity|]. right; right.
        repeat split; lia.
  - intros st (_ & Hs & [(_ & _ & _ & _ & H) | [(_ & _ & _ & _ & H)
                                                | (_ & _ & Hend & _ & H)]]);
      lia.
  - split; [lia|]. split; [reflexivity|]. left. repeat split.
    unfold JS.len in He. lia.
Qed.

Lemma basename_plain_component (p : str) (sp e : Z) :
  lastComponent p sp e -> Path.basename p [] = JS.slice p sp e.
Proof.
  intros Hc. unfold Path.basename. cbn [JS.len List.length Z.of_nat Z.gtb
                                        Z.compare andb].
  pose proof (basename_plain_scan p) as H. cbv zeta in H.
  destruct H as [[_ Hall] | Hc'].
  - destruct Hc as (Hsp & He & Hns & _). exfalso.
    specialize (Hall sp ltac:(lia)). specialize (Hns sp ltac:(lia)).
    congruence.
  - destruct (lastComponent_unique _ _ _ _ _ Hc Hc') as [<- <-].
    destruct Hc as (Hsp & _).
    destruct (e =? -1) eqn:E; [lia|]. reflexivity.
Qed.

Lemma basename_plain_no_slash (p : str) :
  Forall (fun c => c <> Path.CHAR_FORWARD_SLASH) (Path.basename p []).
Proof.
  pose proof (basename_plain_scan p) as H. cbv zeta in H.
  destruct H as [[He _] | Hc].
  - unfold Path.basename. cbn [JS.len List.length Z.of_nat Z.gtb Z.compare
                               andb].
    rewrite He. constructor.
  - rewrite (basename_plain_component _ _ _ Hc).
    destruct Hc as (Hsp & He & Hns & _).
    apply slice_Forall_index; try lia.
    intros j c Hj Hcode. specialize (Hns j Hj).
    unfold isSlashAt in Hns. rewrite Hcode in Hns. cbn [JS.code_is] in Hns.
    apply Ascii.eqb_neq. exact Hns.
Qed.

Lemma getFileNameWithoutExt_parts (p : str) :
  getFileNameWithoutExt p ++ Path.extname p = Path.basename p [].
Proof.
  unfold getFileNameWithoutExt.
  destruct (Path.extname p) as [|a ext] eqn:Hext;
    [apply app_nil_r|].
  rewrite <- Hext. unfold Path.extname in Hext |- *.
  pose proof (extname_scan_component p) as H. cbv zeta in H.
  set (st := Path.extname_scan p) in *.
  destruct (_ || _) eqn:Hc; [discriminate|]. clear Hext.
  destruct H as [[He _] | (Hcomp & Hsd & Hpd)]; [lia|].
  assert (Hr : Path.startPart st < Path.startDot st < Path.ext_end st)
    by lia.
  pose proof Hcomp as (Hsp & Hle & _).
  unfold Path.basename.
  rewrite (slice_len p (Path.startDot st) (Path.ext_end st)) by lia.
  destruct ((Path.ext_end st - Path.startDot st >? 0)
            && (Path.ext_end st - Path.startDot st <=? JS.len p)) eqn:Hlen;
    [|lia].
  destruct (str_eqb (JS.slice p (Path.startDot st) (Path.ext_end st)) p)
    eqn:Heq.
  { apply str_eqb_eq in Heq. apply (f_equal JS.len) in Heq.
    rewrite slice_len in Heq by lia. lia. }
  pose proof (basename_suffix_scan p _ _ _ Hcomp Hr) as [Hs He].
  cbv zeta in Hs, He. rewrite Hs, He.
  destruct (Path.startPart st =? Path.startDot st) eqn:E1; [lia|].
  destruct (Path.startDot st =? -1) eqn:E2; [lia|].
  rewrite slice_app by lia.
  symmetry. apply basename_plain_component, Hcomp.
Qed.

(** X22.  The name a module is offered under and the extension make up the
    last component of its path: [getFileNameWithoutExt(p)] followed by
    [path.extname(p)] is [path.basename(p)]; so the name never contains a
    slash. *)
Theorem getFileNameWithoutExt_is_basename_less_extension :
  forall p : str,
    getFileNameWithoutExt p ++ Path.extname p = Path.basename p [] /\
    Forall (fun c => c <> Path.CHAR_FORWARD_SLASH) (getFileNameWithoutExt p).
Proof.
  intros p. pose proof (getFileNameWithoutExt_parts p) as H.
  split; [exact H|].
  pose proof (basename_plain_no_slash p) as Hn.
  rewrite <- H in Hn. apply Forall_app in Hn. apply Hn.
Qed.

Lemma slash_is_no_dot (p : str) (j : Z) :
  isSlashAt p j = true -> isDotAt p j = false.
Proof.
  unfold isSlashAt, isDotAt.
  destruct (JS.charCodeAt p j) as [c|]; cbn [JS.code_is]; [|reflexivity].
  intros H. apply Ascii.eqb_eq in H. subst c. reflexivity.
Qed.

Lemma extname_scan_dots (p : str) :
  ext_dots p (Path.startPart (Path.extname_scan p)) (Path.extname_scan p).
Proof.
  unfold Path.extname_scan.
  apply (for_down_rule
           0 (Path.extname_body p)
           (fun k st =>
              Path.startPart st = 0 /\
              (Path.ext_matchedSlash st = true ->
               Path.startDot st = -1 /\ Path.ext_end st = -1) /\
              ext_dots p (Z.of_nat k) st)
           (fun st => ext_dots p (Path.startPart st) st)).
  - intros k st (Hs & Hm & Hd).
    unfold Path.extname_body. rewrite Z.add_0_l.
    fold (isSlashAt p (Z.of_nat k)). fold (isDotAt p (Z.of_nat k)).
    destruct st as [sd sp e m pd]. unfold ext_dots in *.
    cbn [Path.startDot Path.startPart Path.ext_end Path.ext_matchedSlash
         Path.preDotState] in *. subst sp.
    destruct Hd as [Hnone Hsome].
    destruct (isSlashAt p (Z.of_nat k)) eqn:Hsl.
    + pose proof (slash_is_no_dot _ _ Hsl) as Hnd.
      destruct m; cbn [negb fst snd Path.startDot Path.startPart Path.ext_end
                       Path.ext_matchedSlash Path.preDotState].
      * destruct (Hm eq_refl) as [Hsd He]. specialize (Hnone Hsd).
        destruct Hnone as [Hpd Hnone].
        split; [reflexivity|]. split; [intros _; split; assumption|].
        split; [|intros H; contradiction].
        intros _. split; [exact Hpd|].
        intros j Hj. destruct (Z.eq_dec j (Z.of_nat k)) as [-> | Hne];
          [exact Hnd | apply Hnone; lia].
      * replace (Z.of_nat k + 1) with (Z.of_nat (S k)) by lia.
        split; assumption.
    + (* a character of the component: the end is recorded first *)
      assert (Hst1 :
                (if e =? -1
                 then Path.mkExt sd 0 (Z.of_nat k + 1) false pd
                 else Path.mkExt sd 0 e m pd)
                = Path.mkExt sd 0 (if e =? -1 then Z.of_nat k + 1 else e)
                             false pd).
      { destruct (e =? -1) eqn:Ee; [reflexivity|].
        destruct m; [|reflexivity]. destruct (Hm eq_refl). lia. }
      rewrite Hst1. clear Hst1.
      set (e' := if e =? -1 then Z.of_nat k + 1 else e).
      assert (Hin : forall j, Z.of_nat k < j < e' -> Z.of_nat (S k) <= j < e).
      { subst e'. intros j Hj. destruct (e =? -1) eqn:Ee; lia. }
      clearbody e'.
      cbn [Path.startDot Path.startPart Path.ext_end Path.ext_matchedSlash
           Path.preDotState].
      destruct (Z.eq_dec sd (-1)) as [-> | Hsd].
      * destruct (Hnone eq_refl) as [-> Hno]. clear Hnone Hsome.
        change (-1 =? -1) with true. cbn [negb].
        destruct (isDotAt p (Z.of_nat k)) eqn:Hdot;
          cbn [fst snd Path.startDot Path.startPart Path.ext_end
               Path.ext_matchedSlash Path.preDotState];
          (split; [reflexivity|]); (split; [intros H; discriminate|]).
        -- split; [intros H; lia|]. intros _.
           split; [exact Hdot|]. split; [lia|]. split.
           ++ intros j Hj. apply Hno. apply Hin. lia.
           ++ split; [reflexivity|discriminate].
        -- split; [|intros H; contradiction]. intros _.
           split; [reflexivity|]. intros j Hj.
           destruct (Z.eq_dec j (Z.of_nat k)) as [-> | Hne];
             [exact Hdot | apply Hno; apply Hin; lia].
      * destruct (Hsome Hsd) as (Hat & Hle & Hafter & Hzero & Hone).
        clear Hnone Hsome.
        destruct (sd =? -1) eqn:Es; [lia|]. cbn [negb].
        assert (Hafter' : forall j, sd < j < e' -> isDotAt p j = false).
        { intros j Hj. apply Hafter. specialize (Hin j). lia. }
        destruct (isDotAt p (Z.of_nat k)) eqn:Hdot;
          [destruct (pd =? 1) eqn:Ep|];
          cbn [negb fst snd Path.startDot Path.startPart Path.ext_end
               Path.ext_matchedSlash Path.preDotState];
          (split; [reflexivity|]); (split; [intros H; discriminate|]);
          (split; [intros H; lia|intros _]);
          (split; [exact Hat|]); (split; [lia|]); (split; [exact Hafter'|]);
          split; intros H; try lia; try exact Hdot; try discriminate.
  - intros st (Hs & _ & Hd). rewrite Hs. exact Hd.
  - split; [reflexivity|]. split; [intros _; split; reflexivity|].
    unfold ext_dots. cbn. split; [|intros H; contradiction].
    intros _. split; [reflexivity|]. intros j Hj. lia.
Qed.

Lemma extname_cut (p : str) :
  Path.extname p <> [] ->
  exists sp sd e,
    lastComponent p sp e /\ sp < sd < e /\
    isDotAt p sd = true /\
    (forall j, sd < j < e -> isDotAt p j = false) /\
    Path.extname p = JS.slice p sd e /\
    getFileNameWithoutExt p = JS.slice p sp sd.
Proof.
  intros Hext. unfold getFileNameWithoutExt.
  unfold Path.extname in Hext |- *.
  pose proof (extname_scan_component p) as H. cbv zeta in H.
  pose proof (extname_scan_dots p) as [_ Hd].
  set (st := Path.extname_scan p) in *.
  destruct (_ || _) eqn:Hc; [congruence|]. clear Hext.
  destruct H as [[He _] | (Hcomp & Hsd & Hpd)]; [lia|].
  assert (Hr : Path.startPart st < Path.startDot st < Path.ext_end st)
    by lia.
  destruct (Hd ltac:(lia)) as (Hat & _ & Hafter & _).
  exists (Path.startPart st), (Path.startDot st), (Path.ext_end st).
  split; [exact Hcomp|]. split; [lia|]. split; [exact Hat|].
  split; [exact Hafter|]. split; [reflexivity|].
  pose proof Hcomp as (Hsp & Hle & _).
  unfold Path.basename.
  rewrite (slice_len p (Path.startDot st) (Path.ext_end st)) by lia.
  destruct ((Path.ext_end st - Path.startDot st >? 0)
            && (Path.ext_end st - Path.startDot st <=? JS.len p)) eqn:Hlen;
    [|lia].
  destruct (str_eqb (JS.slice p (Path.startDot st) (Path.ext_end st)) p)
    eqn:Heq.
  { apply str_eqb_eq in Heq. apply (f_equal JS.len) in Heq.
    rewrite slice_len in Heq by lia. lia. }
  pose proof (basename_suffix_scan p _ _ _ Hcomp Hr) as [Hs He].
  cbv zeta in Hs, He. rewrite Hs, He.
  destruct (Path.startPart st =? Path.startDot st) eqn:E1; [lia|].
  destruct (Path.startDot st =? -1) eqn:E2; [lia|].
  reflexivity.
Qed.

Lemma extname_none (p : str) :
  Path.extname p = [] ->
  Path.basename p [] = [] \/
  exists sp e,
    lastComponent p sp e /\
    ((forall j, sp <= j < e -> isDotAt p j = false) \/
     isDotAt p sp = true).
Proof.
  intros Hext. unfold Path.extname in Hext.
  pose proof (extname_scan_component p) as H. cbv zeta in H.
  pose proof (extname_scan_dots p) as [Hnone Hsome].
  set (st := Path.extname_scan p) in *.
  destruct H as [[He Hall] | (Hcomp & Hsd & Hpd)].
  - left. pose proof (basename_plain_scan p) as Hb. cbv zeta in Hb.
    destruct Hb as [[Hbe _] | (Hsp & Hle & Hns & _)].
    + unfold Path.basename.
      cbn [JS.len List.length Z.of_nat Z.gtb Z.compare andb].
      rewrite Hbe. reflexivity.
    + exfalso. set (b := JS.for_down _ _ _ _) in *.
      specialize (Hns (Path.b_start b) ltac:(lia)).
      specialize (Hall (Path.b_start b) ltac:(lia)). congruence.
  - right. exists (Path.startPart st), (Path.ext_end st).
    split; [exact Hcomp|].
    destruct (Z.eq_dec (Path.startDot st) (-1)) as [Hno | Hyes].
    + left. apply Hnone, Hno.
    + right. destruct (Hsome Hyes) as (Hat & Hle & Hafter & Hzero & Hone).
      pose proof Hcomp as (Hsp & Hlen & _).
      destruct (_ || _) eqn:Hc.
      * destruct (Z.eq_dec (Path.preDotState st) 0) as [Hz | Hnz].
        -- rewrite <- (Hzero Hz). exact Hat.
        -- apply Hone. lia.
      * exfalso.
        assert (Hl : JS.len (JS.slice p (Path.startDot st) (Path.ext_end st))
                     = Path.ext_end st - Path.startDot st)
          by (apply slice_len; lia).
        rewrite Hext in Hl. cbn in Hl. lia.
Qed.

Lemma startsWith_char (s : str) (c : ascii) :
  JS.startsWith s [c] = true <-> exists t, s = c :: t.
Proof.
  destruct s as [|d s]; cbn [JS.startsWith].
  - split; [discriminate|]. intros [t H]. discriminate.
  - rewrite andb_true_r, Ascii.eqb_eq. split.
    + intros ->. exists s. reflexivity.
    + intros [t H]. congruence.
Qed.

Lemma includes_char (s : str) (c : ascii) :
  JS.includes s [c] = true <-> In c s.
Proof.
  induction s as [|d s IH]; cbn [JS.includes In].
  - cbn. split; [discriminate|tauto].
  - rewrite orb_true_iff, IH, startsWith_char. split.
    + intros [[t H] | H]; [left; congruence | right; exact H].
    + intros [-> | H]; [left; exists s; reflexivity | right; exact H].
Qed.

Lemma skipn_nth_error {A : Type} (l : list A) (n : nat) (x : A) :
  nth_error l n = Some x -> skipn n l = x :: skipn (S n) l.
Proof.
  revert l. induction n as [|n IH]; intros [|y l] H; try discriminate.
  - cbn in H. injection H as ->. reflexivity.
  - cbn [nth_error] in H. cbn [skipn]. rewrite (IH l H). reflexivity.
Qed.

Lemma slice_head (p : str) (a b : Z) :
  0 <= a < b -> b <= JS.len p ->
  exists c,
    JS.charCodeAt p a = Some c /\ JS.slice p a b = c :: JS.slice p (a + 1) b.
Proof.
  intros Ha Hb.
  destruct (nth_error p (Z.to_nat a)) as [c|] eqn:Hn.
  - exists c. split.
    + unfold JS.charCodeAt. destruct (a <? 0) eqn:E; [lia|exact Hn].
    + rewrite !slice_in_range by lia.
      rewrite (skipn_nth_error _ _ _ Hn).
      replace (Z.to_nat (b - a)) with (S (Z.to_nat (b - (a + 1)))) by lia.
      cbn [firstn]. do 3 f_equal. lia.
  - apply nth_error_None in Hn. unfold JS.len in Hb. lia.
Qed.

Lemma slice_without_dot (p : str) (a b : Z) :
  0 <= a <= b -> b <= JS.len p ->
  (forall j, a <= j < b -> isDotAt p j = false) ->
  ~ In Path.CHAR_DOT (JS.slice p a b).
Proof.
  intros Ha Hb H Hin.
  assert (HF : Forall (fun c => c <> Path.CHAR_DOT) (JS.slice p a b)).
  { apply slice_Forall_index; try assumption.
    intros j c Hj Hc. specialize (H j Hj). unfold isDotAt in H.
    rewrite Hc in H. cbn [JS.code_is] in H. apply Ascii.eqb_neq, H. }
  rewrite Forall_forall in HF. exact (HF _ Hin eq_refl).
Qed.

Lemma slice_with_dot (p : str) (a b : Z) :
  0 <= a < b -> b <= JS.len p -> isDotAt p a = true ->
  JS.slice p a b = Path.CHAR_DOT :: JS.slice p (a + 1) b.
Proof.
  intros Ha Hb Hd. destruct (slice_head p a b Ha Hb) as [c [Hc ->]].
  unfold isDotAt in Hd. rewrite Hc in Hd. cbn [JS.code_is] in Hd.
  apply Ascii.eqb_eq in Hd. subst c. reflexivity.
Qed.

Lemma dot_filter_last_component (p : str) :
  JS.includes (getFileNameWithoutExt p) (js ".") = false <->
  (count_occ ascii_dec (Path.basename p []) Path.CHAR_DOT <= 1)%nat /\
  JS.startsWith (Path.basename p []) (js ".") = false.
Proof.
  change (js ".") with [Path.CHAR_DOT].
  rewrite <- !not_true_iff_false, includes_char, startsWith_char.
  destruct (list_eq_dec ascii_dec (Path.extname p) []) as [Hno | Hyes].
  - assert (Hname : getFileNameWithoutExt p = Path.basename p []).
    { unfold getFileNameWithoutExt. rewrite Hno. reflexivity. }
    rewrite Hname.
    destruct (extname_none p Hno) as [-> | (sp & e & Hcomp & Hdots)].
    + cbn. split; [intros _|tauto]. split; [lia|]. intros [t H]. discriminate.
    + rewrite (basename_plain_component _ _ _ Hcomp).
      destruct Hcomp as (Hsp & Hle & _).
      destruct Hdots as [Hnone | Hfirst].
      * pose proof (slice_without_dot p sp e ltac:(lia) Hle Hnone) as Hnot.
        split; [intros _|intros _; exact Hnot].
        split.
        -- rewrite (proj1 (count_occ_not_In ascii_dec _ _) Hnot). lia.
        -- intros [t Ht]. apply Hnot. rewrite Ht. left; reflexivity.
      * rewrite (slice_with_dot p sp e Hsp Hle Hfirst).
        split.
        -- intros H. exfalso. apply H. left; reflexivity.
        -- intros [_ H]. exfalso. apply H. eexists; reflexivity.
  - destruct (extname_cut p Hyes)
      as (sp & sd & e & Hcomp & Hr & Hat & Hafter & Hext & Hname).
    pose proof (getFileNameWithoutExt_parts p) as Hparts.
    rewrite <- Hparts, Hext, Hname.
    destruct Hcomp as (Hsp & Hle & _).
    rewrite (slice_with_dot p sd e ltac:(lia) Hle Hat).
    pose proof (slice_without_dot p (sd + 1) e ltac:(lia) Hle
                                  ltac:(intros j Hj; apply Hafter; lia))
      as Hx.
    destruct (slice_head p sp sd ltac:(lia) ltac:(lia)) as [h [_ Hh]].
    rewrite Hh.
    set (t := JS.slice p (sp + 1) sd) in *.
    set (x := JS.slice p (sd + 1) e) in *.
    rewrite count_occ_app.
    rewrite (count_occ_cons_eq ascii_dec x (eq_refl Path.CHAR_DOT)).
    rewrite (proj1 (count_occ_not_In ascii_dec _ _) Hx).
    split.
    + intros Hnot.
      rewrite (proj1 (count_occ_not_In ascii_dec _ _) Hnot).
      split; [lia|]. intros [u Hu]. apply Hnot.
      cbn [app] in Hu. injection Hu as -> _. left; reflexivity.
    + intros [Hcount _] Hin.
      apply (count_occ_In ascii_dec) in Hin. lia.
Qed.


Example discovery_dot_filter_examples :
  map (keepPath (mkOptions None None None None))
      [js "/proj/Foo.ts"; js "/proj/Foo"; js "/proj/Foo.";
       js "/proj/Foo.test.ts"; js "/proj/.eslintrc"; js "/proj/.hidden.ts";
       js "/proj/a.b/Foo.ts"; js "/proj/Foo.ts/"]
  = [true; true; true; false; false; false; true; true].
Proof. vm_compute; reflexivity. Qed.

Lemma getFileNameWithoutExt_leading (p : str) :
  testLeadingUpper (getFileNameWithoutExt p)
  = testLeadingUpper (Path.basename p []).
Proof.
  destruct (list_eq_dec ascii_dec (Path.extname p) []) as [Hno | Hyes].
  - unfold getFileNameWithoutExt. rewrite Hno. reflexivity.
  - destruct (extname_cut p Hyes)
      as (sp & sd & e & Hcomp & Hr & _ & _ & _ & Hname).
    rewrite <- (getFileNameWithoutExt_parts p), Hname.
    destruct Hcomp as (Hsp & Hle & _).
    destruct (slice_head p sp sd ltac:(lia) ltac:(lia)) as [h [_ ->]].
    reflexivity.
Qed.

Lemma upper_is_no_dot (s : str) :
  testLeadingUpper s = true -> JS.startsWith s (js ".") = false.
Proof.
  destruct s as [|c s]; [reflexivity|]. cbn [testLeadingUpper].
  intros Hu. change (js ".") with [Path.CHAR_DOT].
  apply not_true_iff_false. intros H. apply startsWith_char in H.
  destruct H as [t H]. injection H as -> _. discriminate.
Qed.

(** X24.  With [capitalizedFilesOnly] set, a path passes the filter of
    discovery exactly when its last component has at most one dot and
    starts with a letter between [A] and [Z]. *)
Theorem discovery_capitalized_filter :
  forall (p : str) ps i n,
    keepPath (mkOptions ps i n (Some true)) p = true <->
    (count_occ ascii_dec (Path.basename p []) Path.CHAR_DOT <= 1)%nat /\
    testLeadingUpper (Path.basename p []) = true.
Proof.
  intros p ps i n. unfold keepPath. cbn [capitalizedFilesOnly JS.truthyb].
  rewrite getFileNameWithoutExt_leading.
  pose proof (dot_filter_last_component p) as Hdot.
  destruct (JS.includes (getFileNameWithoutExt p) (js ".")).
  - split; [discriminate|]. intros [Hc Hu].
    assert (Habs : true = false).
    { apply Hdot. split; [exact Hc|]. apply upper_is_no_dot, Hu. }
    discriminate.
  - split.
    + intros Hu. split; [|exact Hu]. apply Hdot. reflexivity.
    + intros [_ Hu]. exact Hu.
Qed.

(** ** The earlier variant *)

(** X25.  The earlier [getModuleSpceifier] agrees with the present fallback
    under ["minimal"] when a [baseUrl] is set.  Without one it always
    returns a specifier that starts with [./], also for a module in another
    directory, and agrees with the present ["minimal"] fallback when the
    relative path has no leading dot and no backslash. *)
Theorem legacy_specifier_and_fallback :
  forall cwd selfPath modulePath base,
    (JS.truthy base = true ->
     Legacy.getModuleSpceifier cwd selfPath modulePath
                               (mkCompilerOptions base None)
     = fallbackSpecifier cwd selfPath modulePath
                         (mkCompilerOptions base (Some (js "minimal")))) /\
    (JS.truthy base = false ->
     JS.startsWith
       (Legacy.getModuleSpceifier cwd selfPath modulePath
                                  (mkCompilerOptions base None))
       (js "./") = true /\
     (JS.startsWith (Path.relative cwd (Path.dirname selfPath) modulePath)
                    (js ".") = false ->
      noBackslash (Path.relative cwd (Path.dirname selfPath) modulePath) ->
      Legacy.getModuleSpceifier cwd selfPath modulePath
                                (mkCompilerOptions base None)
      = fallbackSpecifier cwd selfPath modulePath
                          (mkCompilerOptions base (Some (js "minimal"))))).
Proof.
  intros cwd selfPath modulePath base. split.
  - intros Hb. destruct base as [[|c b]|]; try discriminate. reflexivity.
  - intros Hb.
    assert (Hleg : Legacy.getModuleSpceifier cwd selfPath modulePath
                                             (mkCompilerOptions base None)
                   = getFilePathWithoutExt
                       (js "./" ++ Path.relative cwd (Path.dirname selfPath)
                                                 modulePath)).
    { unfold Legacy.getModuleSpceifier. cbn [baseUrl].
      destruct base as [[|c b]|]; try discriminate; reflexivity. }
    rewrite Hleg. split.
    + destruct (getFilePathWithoutExt_dot_slash
                  (Path.relative cwd (Path.dirname selfPath) modulePath))
        as [r ->].
      reflexivity.
    + intros Hdot Hnb.
      rewrite fallback_without_baseUrl by exact Hb.
      cbv zeta. rewrite Hdot.
      unfold appendedExtension. cbn [importModuleSpecifierEnding].
      change (opt_is (Some (js "minimal")) (js "js")) with false.
      change (opt_is (Some (js "minimal")) (js "minimal")) with true.
      cbv iota. rewrite app_nil_r. f_equal.
      assert (Hid : forall s, noBackslash s -> replaceBackslashes s = s).
      { intros s Hs. unfold replaceBackslashes.
        induction Hs as [|c s Hc _ IH]; [reflexivity|].
        cbn [map]. rewrite IH. apply Ascii.eqb_neq in Hc. rewrite Hc.
        reflexivity. }
      symmetry. apply Hid.
      constructor; [discriminate|]. constructor; [discriminate|]. exact Hnb.
Qed.

Lemma legacy_specifier_and_fallback_witness :
  JS.startsWith
    (Legacy.getModuleSpceifier (js "/home/u") (js "/proj/src/a/Foo.ts")
                               (js "/proj/src/b/Bar.ts")
                               (mkCompilerOptions None None))
    (js "./") = true.
Proof.
  apply (proj1 (proj2 (legacy_specifier_and_fallback
                         (js "/home/u") (js "/proj/src/a/Foo.ts")
                         (js "/proj/src/b/Bar.ts") None)
                      eq_refl)).
Defined.

Example legacy_specifier_examples :
  forall cwd,
    Legacy.getModuleSpceifier cwd (js "/proj/src/a/Foo.ts")
                              (js "/proj/src/b/Bar.ts")
                              (mkCompilerOptions None None)
    = js "./../b/Bar" /\
    Legacy.getModuleSpceifier cwd (js "/proj/src/a/Foo.ts")
                              (js "/proj/src/a/Bar.ts")
                              (mkCompilerOptions None None)
    = js "./Bar".
Proof. intros; split; vm_compute; reflexivity. Qed.

(** X26.  The earlier [getModulePathsToImport] throws without [paths];
    with [paths] it returns every listed path once, in the order of the
    listing, with no filter: dotted names such as [Foo.test.ts] stay. *)
Theorem legacy_discovery_unfiltered :
  forall cwd ServerHost i n c (p : Project ServerHost),
    Legacy.getModulePathsToImport cwd (mkOptions None i n c) p
    = Throw TypeError /\
    forall ps,
      let listed :=
        flat_map
          (fun dirPath =>
             readDirectory p (Path.resolve cwd [getCurrentDirectory p; dirPath])
                           [js ".ts"; js ".js"] None None None)
          ps in
      exists out,
        Legacy.getModulePathsToImport cwd (mkOptions (Some ps) i n c) p
        = Normal out /\
        out = firstOccurrences listed /\
        NoDup out /\
        forall x, In x out <-> In x listed.
Proof.
  intros cwd SH i n c p. split; [reflexivity|].
  intros ps listed. eexists. split; [reflexivity|].
  fold listed. unfold StrSet.spread. split; [|split].
  - unfold StrSet.of_list. rewrite StrSet_fold_firstOccurrences.
    cbn [app StrSet.has].
    induction (firstOccurrences listed) as [|y l IH]; [reflexivity|].
    simpl. f_equal. exact IH.
  - apply StrSet_of_list_NoDup.
  - intros x. apply StrSet_of_list_In.
Qed.
